(** * go-osc: the OSC 1.0 codec, address matching and client of [osc/osc.go]

    A shallow embedding of the package [osc] (file [osc/osc.go]) together
    with the properties its specification states about it.

    Conventions of the embedding.
    - A Go [[]byte] is a [list byte]; a Go [string] is a Rocq [string] (a
      sequence of 8-bit characters), turned into bytes with
      [list_byte_of_string].
    - Go's fixed-width integers are integers of [Z] with the wrap-around of
      every conversion and operation written out ([to_int32], [to_uint64],
      ...).  [int] is the 64-bit [int] of the usual targets.
    - A [float32]/[float64] argument is carried as its IEEE-754 bit pattern
      ([math.Float32bits]/[math.Float64bits]): this is what
      [binary.Write]/[binary.Read] move to and from the wire.
    - A [*bytes.Buffer] that a function writes to is passed in and handed
      back; writes to a [bytes.Buffer] never return an error.
    - A [*bufio.Reader] over an in-memory buffer is the list of bytes not yet
      consumed; reading functions live in the monad [M].
    - Go's [(value, err)] results are values of [result]. *)

From Stdlib Require Import ZArith List String Ascii Strings.Byte Bool Lia DecimalString.
Import ListNotations.

Local Open Scope Z_scope.

(** ** Fixed-width integers *)

Module GoInt.

Definition wrap_unsigned (w z : Z) : Z := z mod 2 ^ w.

Definition wrap_signed (w z : Z) : Z :=
  (z + 2 ^ (w - 1)) mod 2 ^ w - 2 ^ (w - 1).

Definition to_uint32 : Z -> Z := wrap_unsigned 32.
Definition to_uint64 : Z -> Z := wrap_unsigned 64.
Definition to_int32 : Z -> Z := wrap_signed 32.
Definition to_int64 : Z -> Z := wrap_signed 64.
(** Go's [int]. *)
Definition to_int : Z -> Z := wrap_signed 64.

Definition maxInt : Z := 2 ^ 63 - 1.

End GoInt.
Import GoInt.

(** ** Bytes and big-endian numbers ([encoding/binary], [binary.BigEndian]) *)

Definition byte_of_Z (z : Z) : byte :=
  match Byte.of_N (Z.to_N (z mod 256)) with
  | Some b => b
  | None => x00
  end.

Definition Z_of_byte (b : byte) : Z := Z.of_N (Byte.to_N b).

(** The [n] low-order bytes of [z], most significant first: what
    [binary.Write(w, binary.BigEndian, v)] emits for an [n]-byte fixed-width
    [v] (two's complement for the signed types). *)
Fixpoint be_bytes (n : nat) (z : Z) : list byte :=
  match n with
  | O => []
  | S k => byte_of_Z (Z.shiftr z (8 * Z.of_nat k)) :: be_bytes k z
  end.

(** The unsigned number a big-endian byte sequence denotes. *)
Definition be_uint (bs : list byte) : Z :=
  fold_left (fun acc b => acc * 256 + Z_of_byte b) bs 0.

Definition bytes_of (s : string) : list byte := list_byte_of_string s.

(** ** Errors *)

Inductive error : Type :=
| EOF                                   (* io.EOF *)
| ErrUnexpectedEOF                      (* io.ErrUnexpectedEOF *)
| ErrUnsupportedType (type_name : string)
    (* "OSC - unsupported type: %T" *)
| ErrInvalidBundleStartTag (tag : string)
    (* "Invalid bundle start tag: %s" *)
| ErrNoBundleElement                    (* "No bundle element found" *)
| ErrUnsupportedTypeTagString           (* "Unsupported type tag string" *)
| ErrUnsupportedTypeTag (c : byte)      (* "Unsupported type tag: %c" *)
| ErrNet (msg : string).                (* an error of package net *)

(** The outcome of a Go call returning [(value, err)]: [Ok v] is [(v, nil)],
    [Err e] is [(zero, e)], [Panic] is a run-time panic. *)
Inductive result (A : Type) : Type :=
| Ok (a : A)
| Err (e : error)
| Panic.
Arguments Ok {A} a.
Arguments Err {A} e.
Arguments Panic {A}.

(** ** Padding *)

(** [padBytesNeeded] (osc.go:953). Go's [/] on [int] truncates: [Z.quot]. *)
Definition padBytesNeeded (elementLen : Z) : Z :=
  to_int (to_int (4 * to_int (Z.quot elementLen 4 + 1)) - elementLen).

(** [writePaddedString] (osc.go:931): the new contents of [buff] and the
    returned [numberOfBytes]. [buff.Write] returns the number of bytes it
    was given, which the source stores back into [numPadBytes]. *)
Definition writePaddedString (str : string) (buff : list byte) : list byte * Z :=
  let buff := buff ++ bytes_of str in
  let n := Z.of_nat (String.length str) in
  let numPadBytes := padBytesNeeded (Z.of_nat (String.length str)) in
  if 0 <? numPadBytes then
    let padBytes := repeat x00 (Z.to_nat numPadBytes) in
    let buff := buff ++ padBytes in
    let numPadBytes := Z.of_nat (List.length padBytes) in
    (buff, to_int (n + numPadBytes))
  else (buff, to_int (n + numPadBytes)).

(** [writeBlob] (osc.go:880). *)
Definition writeBlob (data : list byte) (buff : list byte) : list byte * Z :=
  let dlen := to_int32 (Z.of_nat (List.length data)) in
  let buff := buff ++ be_bytes 4 dlen in
  let buff := buff ++ data in
  let numPadBytes := padBytesNeeded (Z.of_nat (List.length data)) in
  if 0 <? numPadBytes then
    let padBytes := repeat x00 (Z.to_nat numPadBytes) in
    let buff := buff ++ padBytes in
    let numPadBytes := Z.of_nat (List.length padBytes) in
    (buff, to_int (to_int (4 + Z.of_nat (List.length data)) + numPadBytes))
  else (buff, to_int (to_int (4 + Z.of_nat (List.length data)) + numPadBytes)).

(** ** Wall-clock time (package [time] of the Go library) *)

Module GoTime.

(** A [time.Time], by what the package observes of it: [t.Unix()], the
    seconds since 1970-01-01T00:00:00Z (an [int64]), and [t.Nanosecond()],
    the nanoseconds within that second, in [0, 999999999]. *)
Record Time : Type := mkTime { Time_Unix : Z; Time_Nanosecond : Z }.

Definition valid (t : Time) : Prop :=
  - 2 ^ 63 <= Time_Unix t < 2 ^ 63 /\ 0 <= Time_Nanosecond t < 1000000000.

(** [time.Unix(sec, nsec)]: [nsec] outside [0, 999999999] is carried into
    the seconds. *)
Definition Unix (sec nsec : Z) : Time :=
  if (nsec <? 0) || (1000000000 <=? nsec) then
    let n := Z.quot nsec 1000000000 in
    let sec := to_int64 (sec + n) in
    let nsec := to_int64 (nsec - to_int64 (n * 1000000000)) in
    if nsec <? 0
    then mkTime (to_int64 (sec - 1)) (to_int64 (nsec + 1000000000))
    else mkTime sec nsec
  else mkTime sec nsec.

End GoTime.

(** ** Timetags *)

Definition timeTagImmediate : Z := 1.
Definition secondsFrom1900To1970 : Z := 2208988800.

(** [timeToTimetag] (osc.go:971). The sum and the shift are [int64]
    operations, the result is converted to [uint64]; the nanoseconds go
    through [uint32] and [uint64]. *)
Definition timeToTimetag (time : GoTime.Time) : Z :=
  let timetag :=
    to_uint64 (to_int64
      (Z.shiftl (to_int64 (secondsFrom1900To1970 + GoTime.Time_Unix time)) 32)) in
  to_uint64 (timetag + to_uint64 (to_uint32 (GoTime.Time_Nanosecond time))).

(** [timetagToTime] (osc.go:977). *)
Definition timetagToTime (timetag : Z) : GoTime.Time :=
  GoTime.Unix
    (to_int64 (to_uint64 (Z.shiftr timetag 32 - secondsFrom1900To1970)))
    (to_int64 (Z.land timetag 0xffffffff)).

(** [OscTimetag] (osc.go:119). *)
Record OscTimetag : Type := mkOscTimetag {
  timeTag : Z;               (* uint64 *)
  time : GoTime.Time;
  MinValue : Z               (* uint64 *)
}.

(** [NewOscTimetag] (osc.go:810). *)
Definition NewOscTimetag (timeStamp : GoTime.Time) : OscTimetag :=
  {| time := timeStamp; timeTag := timeToTimetag timeStamp; MinValue := to_uint64 1 |}.

(** [NewOscTimetagFromTimetag] (osc.go:818). *)
Definition NewOscTimetagFromTimetag (timetag : Z) : OscTimetag :=
  let time := timetagToTime timetag in
  NewOscTimetag time.

(** [OscTimetag.FractionalSecond] (osc.go:830). *)
Definition FractionalSecond (self : OscTimetag) : Z :=
  to_uint32 (to_uint64 (Z.shiftl (timeTag self) 32)).

(** [OscTimetag.SecondsSinceEpoch] (osc.go:836). *)
Definition SecondsSinceEpoch (self : OscTimetag) : Z :=
  to_uint32 (Z.shiftr (timeTag self) 32).

(** [OscTimetag.TimeTag] (osc.go:841). *)
Definition TimeTag (self : OscTimetag) : Z := timeTag self.

(** [OscTimetag.ToByteArray] (osc.go:846). *)
Definition OscTimetag_ToByteArray (self : OscTimetag) : list byte :=
  be_bytes 8 (timeTag self).

(** [OscTimetag.SetTime] (osc.go:853). *)
Definition SetTime (self : OscTimetag) (t : GoTime.Time) : OscTimetag :=
  {| time := t; timeTag := timeToTimetag t; MinValue := MinValue self |}.

(** ** Messages *)

(** An element of [arguments []interface{}], by its dynamic type. The
    encoder's type switch (osc.go:303) tells the first nine apart;
    [ArgTimetagPtr] is a [*OscTimetag], the type the decoder appends for tag
    ['t'] (osc.go:782), and [ArgOther] is a value of any other type, known
    by the name [%T] prints. *)
Inductive Argument : Type :=
| ArgBool (b : bool)
| ArgNil
| ArgInt32 (i : Z)
| ArgFloat32 (bits : Z)
| ArgString (s : string)
| ArgBlob (data : list byte)
| ArgInt64 (i : Z)
| ArgFloat64 (bits : Z)
| ArgTimetag (t : OscTimetag)
| ArgTimetagPtr (t : OscTimetag)
| ArgOther (type_name : string).

(** [OscMessage] (osc.go:82). *)
Record OscMessage : Type := mkOscMessage {
  Address : string;
  arguments : list Argument
}.

(** [NewOscMessage] (osc.go:209). *)
Definition NewOscMessage (address : string) : OscMessage :=
  {| Address := address; arguments := [] |}.

(** [OscMessage.Arguments] (osc.go:214). *)
Definition Arguments (msg : OscMessage) : list Argument := arguments msg.

(** [OscMessage.Append] (osc.go:219): the message after the call and the
    returned [err] ([None] is [nil]). *)
Definition Append (msg : OscMessage) (argument : Argument)
  : OscMessage * option error :=
  let err : option error := None in
  match argument with
  | ArgNil => (msg, err)
  | _ =>
    ({| Address := Address msg; arguments := arguments msg ++ [argument] |},
     None)
  end.

(** [OscMessage.ClearData] (osc.go:260). *)
Definition ClearData (msg : OscMessage) : OscMessage :=
  {| Address := Address msg;
     arguments := skipn (List.length (arguments msg)) (arguments msg) |}.

(** [OscMessage.Clear] (osc.go:254). *)
Definition Clear (msg : OscMessage) : OscMessage :=
  ClearData {| Address := EmptyString; arguments := arguments msg |}.

(** [OscMessage.CountArguments] (osc.go:277). *)
Definition CountArguments (msg : OscMessage) : Z :=
  Z.of_nat (List.length (arguments msg)).

(** [OscMessage.Match] (osc.go:266). *)
Definition Match (msg : OscMessage) (address : string) : bool :=
  if String.eqb (Address msg) address then true
  else true.

(** ** Encoding a message *)

(** One turn of the loop over [msg.arguments] (osc.go:301-365): the type
    tags and the payload after the argument, or the error the switch
    returns. *)
Definition encode_argument (arg : Argument) (typetags payload : list byte)
  : result (list byte * list byte) :=
  match arg with
  | ArgBool b =>
    if b then Ok (typetags ++ ["T"%byte], payload)
    else Ok (typetags ++ ["F"%byte], payload)
  | ArgNil => Ok (typetags ++ ["N"%byte], payload)
  | ArgInt32 t => Ok (typetags ++ ["i"%byte], payload ++ be_bytes 4 (to_int32 t))
  | ArgFloat32 t => Ok (typetags ++ ["f"%byte], payload ++ be_bytes 4 t)
  | ArgString t => Ok (typetags ++ ["s"%byte], fst (writePaddedString t payload))
  | ArgBlob t => Ok (typetags ++ ["b"%byte], fst (writeBlob t payload))
  | ArgInt64 t => Ok (typetags ++ ["h"%byte], payload ++ be_bytes 8 (to_int64 t))
  | ArgFloat64 t => Ok (typetags ++ ["d"%byte], payload ++ be_bytes 8 t)
  | ArgTimetag timeTag =>
    Ok (typetags ++ ["t"%byte], payload ++ OscTimetag_ToByteArray timeTag)
  | ArgTimetagPtr _ => Err (ErrUnsupportedType "*osc.OscTimetag")
  | ArgOther type_name => Err (ErrUnsupportedType type_name)
  end.

Fixpoint encode_arguments (args : list Argument) (typetags payload : list byte)
  : result (list byte * list byte) :=
  match args with
  | [] => Ok (typetags, payload)
  | arg :: rest =>
    match encode_argument arg typetags payload with
    | Ok (typetags, payload) => encode_arguments rest typetags payload
    | Err e => Err e
    | Panic => Panic
    end
  end.

(** [OscMessage.ToByteArray] (osc.go:286). *)
Definition OscMessage_ToByteArray (msg : OscMessage) : result (list byte) :=
  let data := fst (writePaddedString (Address msg) []) in
  match encode_arguments (arguments msg) [","%byte] [] with
  | Ok (typetags, payload) =>
    let data := fst (writePaddedString (string_of_list_byte typetags) data) in
    Ok (data ++ payload)
  | Err e => Err e
  | Panic => Panic
  end.

(** ** Bundles *)

(** [OscBundle] (osc.go:90). The source keeps [Messages] and [Bundles] as
    slices of pointers. A value of this type is a bundle whose elements
    are all present and which is a finite tree: a nil element, on which
    [ToByteArray] panics, and a bundle that is reachable from itself, on
    which it does not return, have no counterpart here. *)
#[local] Unset Elimination Schemes.
Inductive OscBundle : Type :=
| mkOscBundle (Timetag : OscTimetag)
              (Messages : list OscMessage)
              (Bundles : list OscBundle).
#[local] Set Elimination Schemes.

Definition Timetag (b : OscBundle) : OscTimetag :=
  match b with mkOscBundle t _ _ => t end.
Definition Messages (b : OscBundle) : list OscMessage :=
  match b with mkOscBundle _ ms _ => ms end.
Definition Bundles (b : OscBundle) : list OscBundle :=
  match b with mkOscBundle _ _ bs => bs end.

(** [OscPacket] (osc.go:76), by its two implementations. *)
Inductive OscPacket : Type :=
| PacketMessage (m : OscMessage)
| PacketBundle (b : OscBundle).

(** [NewOscBundle] (osc.go:385). *)
Definition NewOscBundle (time : GoTime.Time) : OscBundle :=
  mkOscBundle (NewOscTimetag time) [] [].

(** [OscBundle.Append] (osc.go:390). The fields the source appends to are
    written [self.bundles] and [self.messages] there; the struct declares
    them [Bundles] and [Messages]. *)
Definition OscBundle_Append (self : OscBundle) (pck : OscPacket) : OscBundle :=
  match pck with
  | PacketBundle t => mkOscBundle (Timetag self) (Messages self) (Bundles self ++ [t])
  | PacketMessage t => mkOscBundle (Timetag self) (Messages self ++ [t]) (Bundles self)
  end.

(** The loop over [self.Messages] (osc.go:427-444). *)
Fixpoint write_messages (ms : list OscMessage) (data : list byte)
  : result (list byte) :=
  match ms with
  | [] => Ok data
  | m :: rest =>
    match OscMessage_ToByteArray m with
    | Ok msgBuf =>
      let msgLen := Z.of_nat (List.length msgBuf) in
      write_messages rest (data ++ be_bytes 4 (to_int32 msgLen) ++ msgBuf)
    | Err e => Err e
    | Panic => Panic
    end
  end.

(** [OscBundle.ToByteArray] (osc.go:412); the inner [fix] is the loop over
    [self.Bundles] (osc.go:447-464). *)
Fixpoint OscBundle_ToByteArray (self : OscBundle) : result (list byte) :=
  match self with
  | mkOscBundle timetag messages bundles =>
    let data := fst (writePaddedString "#bundle" []) in
    let data := data ++ OscTimetag_ToByteArray timetag in
    match write_messages messages data with
    | Ok data =>
      (fix write_bundles (bs : list OscBundle) (data : list byte)
         : result (list byte) :=
         match bs with
         | [] => Ok data
         | b :: rest =>
           match OscBundle_ToByteArray b with
           | Ok bBuf =>
             let bLen := Z.of_nat (List.length bBuf) in
             write_bundles rest (data ++ be_bytes 4 (to_int32 bLen) ++ bBuf)
           | Err e => Err e
           | Panic => Panic
           end
         end) bundles data
    | Err e => Err e
    | Panic => Panic
    end
  end.

(** [OscPacket.ToByteArray]. *)
Definition ToByteArray (packet : OscPacket) : result (list byte) :=
  match packet with
  | PacketMessage m => OscMessage_ToByteArray m
  | PacketBundle b => OscBundle_ToByteArray b
  end.

(** ** Reading from a [*bufio.Reader]

    The reader wraps an in-memory buffer, so its state is the list of bytes
    not yet consumed.  A reading function returns its Go result and the
    reader it leaves behind. *)

Definition Reader : Type := list byte.

Definition M (A : Type) : Type := Reader -> result A * Reader.

Definition ret {A : Type} (a : A) : M A := fun reader => (Ok a, reader).

Definition raise {A : Type} (e : error) : M A := fun reader => (Err e, reader).

Definition bind {A B : Type} (m : M A) (f : A -> M B) : M B :=
  fun reader =>
    match m reader with
    | (Ok a, reader') => f a reader'
    | (Err e, reader') => (Err e, reader')
    | (Panic, reader') => (Panic, reader')
    end.

Notation "x <- m ;; k" := (bind m (fun x => k))
  (at level 61, m at next level, right associativity).

(** The bytes before the first [delim] and the bytes after it. *)
Fixpoint split_at (delim : byte) (bs : list byte) : option (list byte * list byte) :=
  match bs with
  | [] => None
  | b :: rest =>
    if Byte.eqb b delim then Some ([], rest)
    else
      match split_at delim rest with
      | Some (s, rest') => Some (b :: s, rest')
      | None => None
      end
  end.

(** [bufio.Reader.ReadString(delim)]: the bytes up to and including the
    first [delim]; [io.EOF] when the input ends before one is found. *)
Definition ReadString (delim : byte) : M (list byte) :=
  fun reader =>
    match split_at delim reader with
    | Some (s, rest) => (Ok (s ++ [delim]), rest)
    | None => (Err EOF, [])
    end.

(** [bufio.Reader.Peek(1)], by the byte it shows. *)
Definition Peek1 : M byte :=
  fun reader =>
    match reader with
    | [] => (Err EOF, [])
    | b :: _ => (Ok b, reader)
    end.

(** [bufio.Reader.Read(p)] with [len(p) = n > 0]: at most [n] bytes are
    consumed, and the call fails with [io.EOF] only when none is left. *)
Definition Read (n : Z) : M Z :=
  fun reader =>
    match reader with
    | [] => (Err EOF, [])
    | _ =>
      (Ok (Z.of_nat (List.length (firstn (Z.to_nat n) reader))),
       skipn (Z.to_nat n) reader)
    end.

(** [binary.Read(reader, binary.BigEndian, &v)] for a [v] of [size] bytes:
    [io.ReadFull] of [size] bytes, which fails with [io.EOF] on an empty
    input and with [io.ErrUnexpectedEOF] on a short one. *)
Definition binary_Read (size : nat) : M (list byte) :=
  fun reader =>
    match reader with
    | [] => (Err EOF, [])
    | _ =>
      if (List.length reader <? size)%nat then (Err ErrUnexpectedEOF, [])
      else (Ok (firstn size reader), skipn size reader)
    end.

(** ** Decoding functions *)

(** [readBlob] (osc.go:864): the body between the declaration of
    [blobData] and the [return] is comments only. *)
Definition readBlob : M (list byte) :=
  let blobData : list byte := [] in
  ret blobData.

(** [readPaddedString] (osc.go:907). *)
Definition readPaddedString : M string :=
  str <- ReadString x00 ;;
  let str := firstn (List.length str - 1) str in
  let padLen := to_int (padBytesNeeded (Z.of_nat (List.length str)) - 1) in
  if 0 <? padLen then
    _ <- Read padLen ;;
    ret (string_of_list_byte str)
  else ret (string_of_list_byte str).

(** The loop of [readArguments] over the type tags (osc.go:723-800). The
    error of [msg.Append] is dropped, as in the source. In the branch of
    ['t'] a failed read leaves the function with [return nil]
    (osc.go:780); the branches of ['T'] and ['F'] read a [bool], one byte
    that is [true] when it is not zero. The source ranges over the runes
    of the tag string, this loop over its bytes: the two agree on a tag
    string of ASCII characters, one byte to the rune. A byte from 0x80 up
    is part of a longer rune, or decoded as U+FFFD, in the source; all
    such runes go to the [default] branch, where the error names the rune
    and not, as here, the byte. *)
Fixpoint readArguments_loop (typetags : list byte) (msg : OscMessage)
  : M OscMessage :=
  match typetags with
  | [] => ret msg
  | c :: rest =>
    match c with
    | "i"%byte =>
      bs <- binary_Read 4 ;;
      let i := to_int32 (be_uint bs) in
      readArguments_loop rest (fst (Append msg (ArgInt32 i)))
    | "h"%byte =>
      bs <- binary_Read 8 ;;
      let i := to_int64 (be_uint bs) in
      readArguments_loop rest (fst (Append msg (ArgInt64 i)))
    | "f"%byte =>
      bs <- binary_Read 4 ;;
      let f := be_uint bs in
      readArguments_loop rest (fst (Append msg (ArgFloat32 f)))
    | "d"%byte =>
      bs <- binary_Read 8 ;;
      let d := be_uint bs in
      readArguments_loop rest (fst (Append msg (ArgFloat64 d)))
    | "s"%byte =>
      s <- readPaddedString ;;
      readArguments_loop rest (fst (Append msg (ArgString s)))
    | "b"%byte =>
      buf <- readBlob ;;
      readArguments_loop rest (fst (Append msg (ArgBlob buf)))
    | "t"%byte =>
      fun reader =>
        match binary_Read 8 reader with
        | (Ok bs, reader') =>
          let tt := be_uint bs in
          readArguments_loop rest
            (fst (Append msg (ArgTimetagPtr (NewOscTimetagFromTimetag tt))))
            reader'
        | (Err _, reader') => (Ok msg, reader')
        | (Panic, reader') => (Panic, reader')
        end
    | "T"%byte =>
      bs <- binary_Read 1 ;;
      let t := negb (be_uint bs =? 0) in
      readArguments_loop rest (fst (Append msg (ArgBool t)))
    | "F"%byte =>
      bs <- binary_Read 1 ;;
      let t := negb (be_uint bs =? 0) in
      readArguments_loop rest (fst (Append msg (ArgBool t)))
    | _ => raise (ErrUnsupportedTypeTag c)
    end
  end.

(** [OscServer.readArguments] (osc.go:708): the message as the call leaves
    it when it returns [nil]. [typetags[0]] panics on an empty tag string. *)
Definition readArguments (msg : OscMessage) : M OscMessage :=
  typetags <- readPaddedString ;;
  match bytes_of typetags with
  | [] => fun reader => (Panic, reader)
  | c0 :: typetags =>
    if negb (Byte.eqb c0 ","%byte) then raise ErrUnsupportedTypeTagString
    else readArguments_loop typetags msg
  end.

(** [OscServer.readMessage] (osc.go:689). *)
Definition readMessage : M OscMessage :=
  address <- readPaddedString ;;
  let msg := NewOscMessage address in
  readArguments msg.

(** The part of [readBundle] before the bundle element (osc.go:633-664):
    the new bundle and the first byte of the element.

    Three lines of it do not type-check as written, and are read as
    follows. [timeTag] is declared [int64] and handed to [timetagToTime],
    which takes a [uint64]: the value is converted. The result of
    [binary.Read] is assigned to [msgLen] itself (osc.go:655): the call
    fills [msgLen] and its error is examined nowhere, so that a failed
    read leaves [msgLen] at zero. The last line is [return nil, bundle]:
    the bundle is the value returned. *)
Definition read_msgLen : M Z :=
  fun reader =>
    match binary_Read 4 reader with
    | (Ok bs, reader') => (Ok (to_int32 (be_uint bs)), reader')
    | (Err _, reader') => (Ok 0, reader')
    | (Panic, reader') => (Panic, reader')
    end.

Definition readBundle_header : M (OscBundle * byte) :=
  startTag <- readPaddedString ;;
  if negb (String.eqb startTag "#bundle") then
    raise (ErrInvalidBundleStartTag startTag)
  else
    bs <- binary_Read 8 ;;
    let timeTag := to_int64 (be_uint bs) in
    let bundle := NewOscBundle (timetagToTime (to_uint64 timeTag)) in
    msgLen <- read_msgLen ;;
    if msgLen <? 1 then raise ErrNoBundleElement
    else
      buf <- Peek1 ;;
      ret (bundle, buf).

(** [OscServer.readBundle] (osc.go:632). The function calls itself on a
    nested bundle; [fuel] bounds the depth of these calls and [None] is a
    run that needs more. The value returned at the end is the bundle, by
    the reading of osc.go:685 given above; [readBundle_header] and
    [readMessage], the steps before it, do not depend on that reading. *)
Fixpoint readBundle_fuel (fuel : nat) (reader : Reader)
  : option (result OscBundle * Reader) :=
  match fuel with
  | O => None
  | S fuel' =>
    match readBundle_header reader with
    | (Ok (bundle, buf0), reader) =>
      if Byte.eqb buf0 "/"%byte then
        Some ((msg <- readMessage ;;
               ret (OscBundle_Append bundle (PacketMessage msg))) reader)
      else if Byte.eqb buf0 "#"%byte then
        match readBundle_fuel fuel' reader with
        | Some (Ok b, reader) =>
          Some (Ok (OscBundle_Append bundle (PacketBundle b)), reader)
        | Some (Err e, reader) => Some (Err e, reader)
        | Some (Panic, reader) => Some (Panic, reader)
        | None => None
        end
      else Some (Ok bundle, reader)
    | (Err e, reader) => Some (Err e, reader)
    | (Panic, reader) => Some (Panic, reader)
    end
  end.

(** Every nested call comes after at least one byte was consumed, so one
    more unit of fuel than there are bytes is enough
    ([readBundle_fuel_enough]). *)
Definition readBundle (reader : Reader) : option (result OscBundle * Reader) :=
  readBundle_fuel (S (List.length reader)) reader.

(** [OscServer.readFromConnection] (osc.go:591), as a function of the
    clock ([time.Now()]) and of what [conn.ReadFromUDP] delivers: the
    datagram, or an error. The source reads into an undeclared [b] and
    wraps [buf] with the conversion [bytes.Buffer(buf)]; this is read as:
    the datagram is stored at the start of the 1024-byte [buf], and the
    reader is made from the whole of [buf]. [Ok None] is the return of a
    nil bundle and a nil error. The other reading of these two lines,
    with the reader made from the received bytes [buf[:n]] alone, is
    [readFromConnection_n] below. *)
Definition readFromConnection (now : GoTime.Time) (recv : result (list byte))
  : option (result (option OscBundle)) :=
  match recv with
  | Err e => Some (Err e)
  | Panic => Some Panic
  | Ok datagram =>
    let received := firstn 1024 datagram in
    let buf := received ++ repeat x00 (1024 - List.length received) in
    let reader : Reader := buf in
    match Peek1 reader with
    | (Ok buf0, reader) =>
      if Byte.eqb buf0 "/"%byte then
        let bundle := NewOscBundle now in
        match readMessage reader with
        | (Ok msg, _) => Some (Ok (Some (OscBundle_Append bundle (PacketMessage msg))))
        | (Err e, _) => Some (Err e)
        | (Panic, _) => Some Panic
        end
      else if Byte.eqb buf0 "#"%byte then
        match readBundle reader with
        | Some (Ok bundle, _) => Some (Ok (Some bundle))
        | Some (Err e, _) => Some (Err e)
        | Some (Panic, _) => Some Panic
        | None => None
        end
      else Some (Ok None)
    | (Err e, _) => Some (Err e)
    | (Panic, _) => Some Panic
    end
  end.

(** [readFromConnection] with the reader made from [buf[:n]], the [n]
    bytes that [conn.ReadFromUDP] has stored in [buf]. *)
Definition readFromConnection_n (now : GoTime.Time) (recv : result (list byte))
  : option (result (option OscBundle)) :=
  match recv with
  | Err e => Some (Err e)
  | Panic => Some Panic
  | Ok datagram =>
    let reader : Reader := firstn 1024 datagram in
    match Peek1 reader with
    | (Ok buf0, reader) =>
      if Byte.eqb buf0 "/"%byte then
        let bundle := NewOscBundle now in
        match readMessage reader with
        | (Ok msg, _) => Some (Ok (Some (OscBundle_Append bundle (PacketMessage msg))))
        | (Err e, _) => Some (Err e)
        | (Panic, _) => Some Panic
        end
      else if Byte.eqb buf0 "#"%byte then
        match readBundle reader with
        | Some (Ok bundle, _) => Some (Ok (Some bundle))
        | Some (Err e, _) => Some (Err e)
        | Some (Panic, _) => Some Panic
        | None => None
        end
      else Some (Ok None)
    | (Err e, _) => Some (Err e)
    | (Panic, _) => Some Panic
    end
  end.

(** ** The client *)

(** [OscClient] (osc.go:98). *)
Record OscClient : Type := mkOscClient {
  ipaddress : string;
  port : Z
}.

(** [NewOscClient] (osc.go:477) and the accessors (osc.go:482-499). *)
Definition NewOscClient (ip : string) (port : Z) : OscClient :=
  {| ipaddress := ip; port := port |}.
Definition Ip (client : OscClient) : string := ipaddress client.
Definition SetIp (client : OscClient) (ip : string) : OscClient :=
  {| ipaddress := ip; port := port client |}.
Definition Port (client : OscClient) : Z := port client.
Definition SetPort (client : OscClient) (p : Z) : OscClient :=
  {| ipaddress := ipaddress client; port := p |}.

(** [fmt.Sprintf("%s:%d", ip, port)]. *)
Definition host_port (ip : string) (port : Z) : string :=
  (ip ++ ":" ++ NilZero.string_of_int (Z.to_int port))%string.

Section Net.

(** Package [net], by the calls [Send] makes: [net.ResolveUDPAddr("udp", s)]
    with its two results (a nil address is [None], a nil error is [None]),
    [net.DialUDP("udp", nil, addr)], and [conn.Write(data)]. *)
Variable UDPAddr : Type.
Variable UDPConn : Type.
Variable ResolveUDPAddr : string -> option UDPAddr * option error.
Variable DialUDP : option UDPAddr -> result UDPConn.
Variable conn_Write : UDPConn -> list byte -> result Z.

(** What [Send] did with the connection, in order. *)
Inductive conn_call : Type :=
| CallWrite (conn : UDPConn) (data : list byte)
| CallClose (conn : UDPConn).

(** [OscClient.Send] (osc.go:502): the returned error ([Ok tt] is nil) and
    the calls made on the connection. *)
Definition Send (client : OscClient) (packet : OscPacket)
  : result unit * list conn_call :=
  let (addr, _) := ResolveUDPAddr (host_port (ipaddress client) (port client)) in
  match DialUDP addr with
  | Err e => (Err e, [])
  | Panic => (Panic, [])
  | Ok conn =>
    match ToByteArray packet with
    | Err e => (Err e, [CallClose conn])
    | Panic => (Panic, [])
    | Ok data =>
      match conn_Write conn data with
      | Err e => (Err e, [CallWrite conn data; CallClose conn])
      | Panic => (Panic, [CallWrite conn data])
      | Ok _ => (Ok tt, [CallWrite conn data; CallClose conn])
      end
    end
  end.

End Net.

Arguments CallWrite {UDPConn} conn data.
Arguments CallClose {UDPConn} conn.
Arguments Send {UDPAddr UDPConn} ResolveUDPAddr DialUDP conn_Write client packet.

(** ** Clients of the package *)

(** A call of one of the methods of [OscMessage] that change a message. *)
Inductive message_call : Type :=
| CallAppend (argument : Argument)
| CallClear
| CallClearData.

Definition do_call (msg : OscMessage) (call : message_call) : OscMessage :=
  match call with
  | CallAppend argument => fst (Append msg argument)
  | CallClear => Clear msg
  | CallClearData => ClearData msg
  end.

(** The message a client of the package holds after [NewOscMessage(address)]
    and a sequence of calls: [arguments] is not exported, so these calls
    are the only way a client has to fill it. *)
Definition build (address : string) (calls : list message_call) : OscMessage :=
  fold_left do_call calls (NewOscMessage address).

(** A network on which the name of the host does not resolve:
    [net.ResolveUDPAddr] returns a nil address and an error, and
    [net.DialUDP], given a nil remote address, fails in its turn with its
    own error. Addresses and connections carry no data here. *)
Definition unresolved_ResolveUDPAddr (s : string) : option unit * option error :=
  (None, Some (ErrNet ("lookup " ++ s ++ ": no such host"))).

Definition net_DialUDP (addr : option unit) : result unit :=
  match addr with
  | None => Err (ErrNet "dial udp: missing address")
  | Some _ => Ok tt
  end.

Definition net_Write (conn : unit) (data : list byte) : result Z :=
  Ok (Z.of_nat (List.length data)).

(** A connection on which [Write] fails. *)
Definition refused_Write (conn : unit) (data : list byte) : result Z :=
  Err (ErrNet "write udp: connection refused").

(** Two facts of package [net] that bear on [Send]: [net.ResolveUDPAddr]
    returns a nil address together with an error, and [net.DialUDP]
    refuses a nil remote address with the error "missing address". *)
Definition net_package {UDPAddr UDPConn : Type}
           (ResolveUDPAddr : string -> option UDPAddr * option error)
           (DialUDP : option UDPAddr -> result UDPConn) : Prop :=
  (forall (s : string) (e : error),
      snd (ResolveUDPAddr s) = Some e -> fst (ResolveUDPAddr s) = None) /\
  DialUDP None = Err (ErrNet "dial udp: missing address").

(** ** Values that survive the wire *)

(** A string without a zero byte, short enough for its padded length to be
    an [int]. *)
Definition nul_free (s : string) : Prop := ~ In x00 (bytes_of s).

Definition fits (s : string) : Prop :=
  Z.of_nat (String.length s) + 4 <= maxInt.

(** An argument of one of the types [int32], [int64], [float32], [float64]
    and [string], with a value of that type. *)
Definition number_or_string (arg : Argument) : Prop :=
  match arg with
  | ArgInt32 i => - 2 ^ 31 <= i < 2 ^ 31
  | ArgInt64 i => - 2 ^ 63 <= i < 2 ^ 63
  | ArgFloat32 bits => 0 <= bits < 2 ^ 32
  | ArgFloat64 bits => 0 <= bits < 2 ^ 64
  | ArgString s => nul_free s /\ fits s
  | _ => False
  end.

(** The bytes a string is padded with, after its terminator. *)
Definition padding (str : string) : list byte :=
  let L := Z.of_nat (String.length str) in
  repeat x00 (Z.to_nat (4 * (L / 4 + 1) - L - 1)).

(** A time between 1900-01-01 and the end of the 32-bit count of seconds
    in 2036. *)
Definition ntp_era (t : GoTime.Time) : Prop :=
  0 <= secondsFrom1900To1970 + GoTime.Time_Unix t < 2 ^ 32 /\
  0 <= GoTime.Time_Nanosecond t < 1000000000.

(** ** Sizes, tags and types of arguments *)

(** A byte sequence whose length is a multiple of four. *)
Definition aligned (bs : list byte) : Prop :=
  Z.of_nat (List.length bs) mod 4 = 0.

(** An argument, a message and a bundle whose strings and blobs are short
    enough for the arithmetic on their lengths to stay within [int]. *)
Definition arg_fits (arg : Argument) : Prop :=
  match arg with
  | ArgString s => fits s
  | ArgBlob data => Z.of_nat (List.length data) + 8 <= maxInt
  | _ => True
  end.

Definition msg_fits (msg : OscMessage) : Prop :=
  fits (Address msg) /\
  Z.of_nat (List.length (arguments msg)) + 5 <= maxInt /\
  Forall arg_fits (arguments msg).

Fixpoint bundle_fits (b : OscBundle) : Prop :=
  match b with
  | mkOscBundle _ ms bs =>
    Forall msg_fits ms /\
    (fix all (l : list OscBundle) : Prop :=
       match l with
       | [] => True
       | b' :: l' => bundle_fits b' /\ all l'
       end) bs
  end.

(** The arguments the type switch of the encoder sends to its [default]
    branch, and the name [%T] prints for them. *)
Definition unsupported (arg : Argument) : bool :=
  match arg with
  | ArgTimetagPtr _ | ArgOther _ => true
  | _ => false
  end.

Definition type_name (arg : Argument) : string :=
  match arg with
  | ArgTimetagPtr _ => "*osc.OscTimetag"
  | ArgOther name => name
  | _ => EmptyString
  end.

(** The type tag the encoder writes for an argument it supports
    (osc.go:307-360). *)
Definition tag_of (arg : Argument) : byte :=
  match arg with
  | ArgBool true => "T"%byte
  | ArgBool false => "F"%byte
  | ArgNil => "N"%byte
  | ArgInt32 _ => "i"%byte
  | ArgFloat32 _ => "f"%byte
  | ArgString _ => "s"%byte
  | ArgBlob _ => "b"%byte
  | ArgInt64 _ => "h"%byte
  | ArgFloat64 _ => "d"%byte
  | _ => "t"%byte
  end.

(** The loop over [self.Bundles] (osc.go:447-464), on its own: the inner
    [fix] of [OscBundle_ToByteArray], with the encoder of a bundle as a
    parameter. *)
Definition write_bundles_with (enc : OscBundle -> result (list byte))
  : list OscBundle -> list byte -> result (list byte) :=
  fix write_bundles (bs : list OscBundle) (data : list byte)
    : result (list byte) :=
    match bs with
    | [] => Ok data
    | b :: rest =>
      match enc b with
      | Ok bBuf =>
        let bLen := Z.of_nat (List.length bBuf) in
        write_bundles rest (data ++ be_bytes 4 (to_int32 bLen) ++ bBuf)
      | Err e => Err e
      | Panic => Panic
      end
    end.

(** The messages of a bundle in the order [OscBundle.ToByteArray] encodes
    them: its own messages, then those of each nested bundle. *)
Fixpoint bundle_messages (b : OscBundle) : list OscMessage :=
  match b with
  | mkOscBundle _ ms bs => ms ++ flat_map bundle_messages bs
  end.

(** The error [OscMessage.ToByteArray] returns for a message, if any, and
    the first error among a sequence of messages. *)
Definition msg_error (msg : OscMessage) : option error :=
  match find unsupported (arguments msg) with
  | Some arg => Some (ErrUnsupportedType (type_name arg))
  | None => None
  end.

Fixpoint first_error (ms : list OscMessage) : option error :=
  match ms with
  | [] => None
  | m :: rest =>
    match msg_error m with
    | Some e => Some e
    | None => first_error rest
    end
  end.

(** The messages and the bundles among a sequence of packets. *)
Definition packets_messages (pcks : list OscPacket) : list OscMessage :=
  flat_map (fun p => match p with PacketMessage m => [m] | PacketBundle _ => [] end)
           pcks.

Definition packets_bundles (pcks : list OscPacket) : list OscBundle :=
  flat_map (fun p => match p with PacketBundle b => [b] | PacketMessage _ => [] end)
           pcks.

(** The tags [readArguments] has a case for (osc.go:729-798). *)
Definition decoder_tags : list byte :=
  ["i"%byte; "h"%byte; "f"%byte; "d"%byte; "s"%byte; "b"%byte; "t"%byte;
   "T"%byte; "F"%byte].

(** What the decoder can append to a message: a boolean, a number within
    the range of its type, a string without a zero byte, the empty blob,
    or a pointer to the timetag made of 64 bits of the input. *)
Definition decoded (arg : Argument) : Prop :=
  match arg with
  | ArgBool _ => True
  | ArgInt32 i => - 2 ^ 31 <= i < 2 ^ 31
  | ArgInt64 i => - 2 ^ 63 <= i < 2 ^ 63
  | ArgFloat32 bits => 0 <= bits < 2 ^ 32
  | ArgFloat64 bits => 0 <= bits < 2 ^ 64
  | ArgString s => nul_free s
  | ArgBlob data => data = []
  | ArgTimetagPtr t =>
    exists tt : Z, 0 <= tt < 2 ^ 64 /\ t = NewOscTimetagFromTimetag tt
  | ArgNil | ArgTimetag _ | ArgOther _ => False
  end.

(** A bundle that holds at most one element, a message or a bundle, which
    if it is a bundle holds at most one element in its turn. *)
Fixpoint single_chain (b : OscBundle) : Prop :=
  match b with
  | mkOscBundle _ ms bs =>
    (List.length ms + List.length bs <= 1)%nat /\
    (fix all (l : list OscBundle) : Prop :=
       match l with
       | [] => True
       | b' :: l' => single_chain b' /\ all l'
       end) bs
  end.

(** [argument == nil] (osc.go:220). *)
Definition is_nil (arg : Argument) : bool :=
  match arg with
  | ArgNil => true
  | _ => false
  end.

(** A network on which every name resolves and every dial succeeds. *)
Definition resolved_ResolveUDPAddr (s : string) : option unit * option error :=
  (Some tt, None).

(** ** Comparing messages *)

(** [==] on two floats of [w] bits with [m] bits of mantissa, given by
    their bit patterns (IEEE 754): a NaN equals nothing, the two zeros are
    equal, and other values are equal when their bits are. *)
Definition float_is_nan (m w bits : Z) : bool :=
  2 ^ (w - 1) - 2 ^ m <? bits mod 2 ^ (w - 1).

Definition float_is_zero (w bits : Z) : bool := bits mod 2 ^ (w - 1) =? 0.

Definition float_eq (m w x y : Z) : bool :=
  if float_is_nan m w x || float_is_nan m w y then false
  else if float_is_zero w x && float_is_zero w y then true
  else x =? y.

(** [b != a] on two [interface{}] values (osc.go:245). Values of different
    dynamic types are different; values of one type are compared, and the
    comparison of two [[]byte] panics. For two timetags, two pointers to
    timetags and two values of other types the outcome depends on what the
    embedding does not hold (the fields of [time.Time], the identity of a
    pointer, the type): it is left to [opaque_neq]. *)
Definition interface_neq (opaque_neq : Argument -> Argument -> result bool)
           (b a : Argument) : result bool :=
  match b, a with
  | ArgBool x, ArgBool y => Ok (negb (Bool.eqb x y))
  | ArgNil, ArgNil => Ok false
  | ArgInt32 x, ArgInt32 y => Ok (negb (x =? y))
  | ArgFloat32 x, ArgFloat32 y => Ok (negb (float_eq 23 32 x y))
  | ArgString x, ArgString y => Ok (negb (String.eqb x y))
  | ArgBlob _, ArgBlob _ => Panic
  | ArgInt64 x, ArgInt64 y => Ok (negb (x =? y))
  | ArgFloat64 x, ArgFloat64 y => Ok (negb (float_eq 52 64 x y))
  | ArgTimetag _, ArgTimetag _ => opaque_neq b a
  | ArgTimetagPtr _, ArgTimetagPtr _ => opaque_neq b a
  | ArgOther _, ArgOther _ => opaque_neq b a
  | _, _ => Ok true
  end.

(** The loop of [Equals] (osc.go:244-248); [b.arguments[i]] past the end
    of [b.arguments] panics. *)
Fixpoint Equals_loop (opaque_neq : Argument -> Argument -> result bool)
         (args b_args : list Argument) : result bool :=
  match args with
  | [] => Ok true
  | arg :: rest =>
    match b_args with
    | [] => Panic
    | b_arg :: b_rest =>
      match interface_neq opaque_neq b_arg arg with
      | Ok true => Ok false
      | Ok false => Equals_loop opaque_neq rest b_rest
      | Err e => Err e
      | Panic => Panic
      end
    end
  end.

(** [OscMessage.Equals] (osc.go:232). *)
Definition Equals (opaque_neq : Argument -> Argument -> result bool)
           (msg b : OscMessage) : result bool :=
  if negb (String.eqb (Address msg) (Address b)) then Ok false
  else if negb (CountArguments msg =? CountArguments b) then Ok false
  else Equals_loop opaque_neq (arguments msg) (arguments b).

(** A boolean, nil, an integer or a string. *)
Definition plain (arg : Argument) : Prop :=
  match arg with
  | ArgBool _ | ArgNil | ArgInt32 _ | ArgInt64 _ | ArgString _ => True
  | _ => False
  end.

(** * Properties *)

(** ** Integers that fit are not changed by a conversion *)

Lemma to_int_small (z : Z) : - 2 ^ 63 <= z <= maxInt -> to_int z = z.
Proof.
  unfold to_int, wrap_signed, maxInt. intros H.
  change (64 - 1) with 63.
  rewrite Z.mod_small; lia.
Qed.

Lemma to_int64_small (z : Z) : - 2 ^ 63 <= z < 2 ^ 63 -> to_int64 z = z.
Proof.
  unfold to_int64, wrap_signed. intros H.
  change (64 - 1) with 63.
  rewrite Z.mod_small; lia.
Qed.

Lemma to_int32_small (z : Z) : - 2 ^ 31 <= z < 2 ^ 31 -> to_int32 z = z.
Proof.
  unfold to_int32, wrap_signed. intros H.
  change (32 - 1) with 31.
  rewrite Z.mod_small; lia.
Qed.

Lemma to_uint32_small (z : Z) : 0 <= z < 2 ^ 32 -> to_uint32 z = z.
Proof. intros H. unfold to_uint32, wrap_unsigned. now apply Z.mod_small. Qed.

Lemma to_uint64_small (z : Z) : 0 <= z < 2 ^ 64 -> to_uint64 z = z.
Proof. intros H. unfold to_uint64, wrap_unsigned. now apply Z.mod_small. Qed.

(** ** Padding *)

(** For the length of anything that fits in memory, [padBytesNeeded] is
    the distance to the next multiple of four strictly above the length:
    between 1 and 4, never 0. *)
Lemma padBytesNeeded_spec (n : Z) :
  0 <= n -> n + 4 <= maxInt ->
  padBytesNeeded n = 4 * (n / 4 + 1) - n.
Proof.
  intros Hn Hmax. unfold padBytesNeeded.
  rewrite Z.quot_div_nonneg by lia.
  assert (Hdm := Z.div_mod n 4 ltac:(lia)).
  assert (Hr := Z.mod_pos_bound n 4 ltac:(lia)).
  unfold maxInt in *.
  rewrite (to_int_small (n / 4 + 1)) by (unfold maxInt; lia).
  rewrite (to_int_small (4 * (n / 4 + 1))) by (unfold maxInt; lia).
  rewrite to_int_small by (unfold maxInt; lia).
  reflexivity.
Qed.

Lemma padBytesNeeded_range (n : Z) :
  0 <= n -> n + 4 <= maxInt ->
  1 <= padBytesNeeded n <= 4 /\ (n + padBytesNeeded n) mod 4 = 0.
Proof.
  intros Hn Hmax. rewrite padBytesNeeded_spec by assumption.
  assert (Hdm := Z.div_mod n 4 ltac:(lia)).
  assert (Hr := Z.mod_pos_bound n 4 ltac:(lia)).
  split; [lia|].
  replace (n + (4 * (n / 4 + 1) - n)) with ((n / 4 + 1) * 4) by lia.
  apply Z.mod_mul. lia.
Qed.

Lemma length_bytes_of (s : string) : List.length (bytes_of s) = String.length s.
Proof.
  unfold bytes_of, list_byte_of_string.
  rewrite length_map. induction s as [|c s IH]; simpl; congruence.
Qed.

Lemma repeat_S_cons {A : Type} (a : A) (n : nat) :
  repeat a (S n) = a :: repeat a n.
Proof. reflexivity. Qed.

(** What [writePaddedString] leaves in the buffer and returns. *)
Lemma writePaddedString_eq (str : string) (buff : list byte) :
  fits str ->
  let L := Z.of_nat (String.length str) in
  writePaddedString str buff
    = (buff ++ bytes_of str ++ x00 :: padding str, 4 * (L / 4 + 1)).
Proof.
  intros Hmax L. unfold fits in Hmax. fold L in Hmax.
  set (total := 4 * (L / 4 + 1)).
  assert (HL : 0 <= L) by (unfold L; lia).
  assert (Hdm := Z.div_mod L 4 ltac:(lia)).
  assert (Hr := Z.mod_pos_bound L 4 ltac:(lia)).
  assert (Hpad : padBytesNeeded L = total - L)
    by (unfold total; apply padBytesNeeded_spec; assumption).
  unfold writePaddedString, padding. fold L. fold total. rewrite Hpad.
  destruct (0 <? total - L) eqn:Hpos;
    [|apply Z.ltb_ge in Hpos; unfold total in *; lia].
  rewrite repeat_length.
  replace (Z.to_nat (total - L)) with (S (Z.to_nat (total - L - 1)))
    by (unfold total; lia).
  rewrite repeat_S_cons, <- app_assoc.
  f_equal.
  rewrite to_int_small; unfold maxInt in *; unfold total in *; lia.
Qed.

(** C5. For every string of length L, [writePaddedString] appends the
    bytes of the string, a NUL terminator and further NUL bytes, and the
    number of bytes appended (which is also the number it returns) is
    4 * (L / 4 + 1): the smallest multiple of 4 that is at least L + 1. *)
Theorem writePaddedString_layout (str : string) (buff : list byte) :
  Z.of_nat (String.length str) + 4 <= maxInt ->
  let L := Z.of_nat (String.length str) in
  let total := 4 * (L / 4 + 1) in
  fst (writePaddedString str buff)
    = buff ++ bytes_of str ++ x00 :: repeat x00 (Z.to_nat (total - L - 1)) /\
  snd (writePaddedString str buff) = total /\
  Z.of_nat (List.length (fst (writePaddedString str buff)))
    = Z.of_nat (List.length buff) + total /\
  total mod 4 = 0 /\
  L + 1 <= total /\
  (forall m : Z, m mod 4 = 0 -> L + 1 <= m -> total <= m).
Proof.
  intros Hmax L total.
  assert (HL : 0 <= L) by (unfold L; lia).
  assert (Hdm := Z.div_mod L 4 ltac:(lia)).
  assert (Hr := Z.mod_pos_bound L 4 ltac:(lia)).
  rewrite (writePaddedString_eq str buff Hmax).
  unfold padding. fold L. fold total. cbv [fst snd].
  repeat split.
  - rewrite !length_app, length_bytes_of. simpl List.length.
    rewrite repeat_length. fold L. unfold total. lia.
  - unfold total. rewrite Z.mul_comm. apply Z.mod_mul. lia.
  - unfold total. lia.
  - intros m Hm Hle.
    assert (Hm' := Z.div_mod m 4 ltac:(lia)). rewrite Hm in Hm'.
    unfold total.
    assert (L / 4 < m / 4) by (apply Z.div_lt_upper_bound; lia).
    lia.
Qed.

(** The two strings the specification names. *)
Example writePaddedString_abcd :
  writePaddedString "abcd" [] = (bytes_of "abcd" ++ [x00; x00; x00; x00], 8).
Proof. reflexivity. Qed.

Example writePaddedString_abc :
  writePaddedString "abc" [] = (bytes_of "abc" ++ [x00], 4).
Proof. reflexivity. Qed.

Lemma writePaddedString_layout_witness :
  fst (writePaddedString "abcd" [])
    = [] ++ bytes_of "abcd" ++ x00 :: repeat x00 (Z.to_nat (4 * (4 / 4 + 1) - 4 - 1)) /\
  snd (writePaddedString "abcd" []) = 4 * (4 / 4 + 1) /\
  Z.of_nat (List.length (fst (writePaddedString "abcd" []))) = 0 + 4 * (4 / 4 + 1) /\
  (4 * (4 / 4 + 1)) mod 4 = 0 /\
  4 + 1 <= 4 * (4 / 4 + 1) /\
  (forall m : Z, m mod 4 = 0 -> 4 + 1 <= m -> 4 * (4 / 4 + 1) <= m).
Proof.
  apply (writePaddedString_layout "abcd" []).
  vm_compute. discriminate.
Defined.

(** ** Blobs *)

(** What [writeBlob] appends: the length, the data, and as many zero
    bytes as [padBytesNeeded] says, which is 4 - N mod 4: four of them for
    a length that is a multiple of 4. *)
Lemma writeBlob_layout (data buff : list byte) :
  Z.of_nat (List.length data) + 8 <= maxInt ->
  let N := Z.of_nat (List.length data) in
  writeBlob data buff
    = (buff ++ be_bytes 4 (to_int32 N) ++ data
            ++ repeat x00 (Z.to_nat (4 - N mod 4)),
       4 + N + (4 - N mod 4)).
Proof.
  intros Hmax N.
  assert (HN : 0 <= N) by (unfold N; lia).
  assert (Hdm := Z.div_mod N 4 ltac:(lia)).
  assert (Hr := Z.mod_pos_bound N 4 ltac:(lia)).
  unfold maxInt in Hmax.
  assert (Hpad : padBytesNeeded N = 4 - N mod 4).
  { rewrite padBytesNeeded_spec by (unfold maxInt; lia). lia. }
  unfold writeBlob. fold N. rewrite Hpad.
  destruct (0 <? 4 - N mod 4) eqn:Hpos; [|apply Z.ltb_ge in Hpos; lia].
  rewrite repeat_length, <- !app_assoc.
  f_equal.
  rewrite (to_int_small (4 + N)) by (unfold maxInt; lia).
  rewrite to_int_small by (unfold maxInt; lia).
  lia.
Qed.

Lemma length_be_bytes (n : nat) (z : Z) : List.length (be_bytes n z) = n.
Proof. induction n as [|n IH]; simpl; congruence. Qed.

(** The number of bytes a blob of N bytes is encoded in. *)
Lemma writeBlob_length (data : list byte) :
  Z.of_nat (List.length data) + 8 <= maxInt ->
  let N := Z.of_nat (List.length data) in
  Z.of_nat (List.length (fst (writeBlob data []))) = 4 + N + (4 - N mod 4).
Proof.
  intros Hmax N. rewrite writeBlob_layout by assumption. fold N.
  assert (Hr := Z.mod_pos_bound N 4 ltac:(lia)).
  cbv [fst].
  rewrite !length_app, length_be_bytes, repeat_length.
  cbn [List.length]. unfold N in *. lia.
Qed.

(** A blob of three bytes is encoded in eight bytes. *)
Example writeBlob_three_bytes :
  writeBlob [x01; x02; x03] []
    = ([x00; x00; x00; x03; x01; x02; x03; x00], 8).
Proof. reflexivity. Qed.

(** C4. A blob of four bytes is encoded in twelve bytes, not eight: the
    length, the four data bytes and four padding bytes, where
    (4 - 4 mod 4) mod 4 is zero. *)
Theorem writeBlob_four_bytes :
  writeBlob [x01; x02; x03; x04] []
    = ([x00; x00; x00; x04; x01; x02; x03; x04; x00; x00; x00; x00], 12) /\
  List.length (fst (writeBlob [x01; x02; x03; x04] [])) = 12%nat /\
  (4 - 4 mod 4) mod 4 = 0.
Proof. repeat split. Qed.

(** ** Timetags *)

Lemma to_uint64_to_int64 (z : Z) : to_uint64 (to_int64 z) = z mod 2 ^ 64.
Proof.
  unfold to_uint64, to_int64, wrap_unsigned, wrap_signed.
  rewrite Zminus_mod_idemp_l. f_equal. lia.
Qed.

Lemma to_int64_mod_2_32 (z : Z) : to_int64 z mod 2 ^ 32 = z mod 2 ^ 32.
Proof.
  unfold to_int64, wrap_signed. change (64 - 1) with 63.
  rewrite Zminus_mod, Z.mod_mod_divide
    by (exists (2 ^ 32); reflexivity).
  rewrite <- Zminus_mod. f_equal. lia.
Qed.

(** The timetag of a time: the seconds since 1900, modulo 2^32, in the
    high half and the nanoseconds, as they are, in the low half. *)
Lemma timeToTimetag_parts (t : GoTime.Time) :
  GoTime.valid t ->
  timeToTimetag t
    = ((secondsFrom1900To1970 + GoTime.Time_Unix t) mod 2 ^ 32) * 2 ^ 32
      + GoTime.Time_Nanosecond t.
Proof.
  intros [Hs Hn]. unfold timeToTimetag.
  set (s := secondsFrom1900To1970 + GoTime.Time_Unix t).
  rewrite to_uint64_to_int64, Z.shiftl_mul_pow2 by lia.
  change (2 ^ 64) with (2 ^ 32 * 2 ^ 32).
  rewrite Z.mul_mod_distr_r by lia.
  rewrite to_int64_mod_2_32.
  assert (Hm := Z.mod_pos_bound s (2 ^ 32) ltac:(lia)).
  rewrite (to_uint32_small (GoTime.Time_Nanosecond t)) by lia.
  rewrite (to_uint64_small (GoTime.Time_Nanosecond t)) by lia.
  apply to_uint64_small.
  change (2 ^ 64) with (2 ^ 32 * 2 ^ 32). nia.
Qed.

Lemma timeToTimetag_high (t : GoTime.Time) :
  GoTime.valid t ->
  Z.shiftr (timeToTimetag t) 32
    = (secondsFrom1900To1970 + GoTime.Time_Unix t) mod 2 ^ 32.
Proof.
  intros Hv. rewrite timeToTimetag_parts by assumption.
  destruct Hv as [_ Hn].
  rewrite Z.shiftr_div_pow2 by lia.
  rewrite Z.div_add_l by lia.
  rewrite (Z.div_small (GoTime.Time_Nanosecond t)) by lia. lia.
Qed.

Lemma timeToTimetag_low (t : GoTime.Time) :
  GoTime.valid t ->
  Z.land (timeToTimetag t) 0xffffffff = GoTime.Time_Nanosecond t.
Proof.
  intros Hv. rewrite timeToTimetag_parts by assumption.
  destruct Hv as [_ Hn].
  change 0xffffffff with (Z.ones 32).
  rewrite Z.land_ones by lia.
  rewrite Z.add_comm, Z.mod_add by lia.
  apply Z.mod_small. lia.
Qed.

(** C7. For the time half a second after 2001-09-09T01:46:40Z (Unix
    second 1000000000), the high 32 bits of the timetag are the seconds
    since 1900, and the low 32 bits are the number of nanoseconds,
    500000000, where half a second in units of 1/2^32 s is 2^31. *)
Theorem timeToTimetag_fraction_not_scaled :
  let t := GoTime.mkTime 1000000000 500000000 in
  Z.shiftr (timeToTimetag t) 32 = 1000000000 + 2208988800 /\
  Z.land (timeToTimetag t) 0xffffffff = 500000000 /\
  500000000 * 2 ^ 32 / 10 ^ 9 = 2147483648 /\
  Z.land (timeToTimetag t) 0xffffffff <> 500000000 * 2 ^ 32 / 10 ^ 9.
Proof. vm_compute. repeat split; discriminate. Qed.

(** ** Messages *)

Lemma Match_always_true (msg : OscMessage) (address : string) :
  Match msg address = true.
Proof. unfold Match. destruct (String.eqb _ _); reflexivity. Qed.

(** C3. [Match] answers [true] for the three pairs of a pattern and an
    address that the pattern does not match: "/foo/*" against
    "/foo/bar/baz", "/foo/{bar,baz}" against "/foo/qux", and "?oo" against
    "fooo". The receiver is the message with the address, the argument is
    the pattern a handler is registered under (osc.go:181). *)
Theorem Match_true_on_mismatch :
  Match (NewOscMessage "/foo/bar/baz") "/foo/*" = true /\
  Match (NewOscMessage "/foo/qux") "/foo/{bar,baz}" = true /\
  Match (NewOscMessage "fooo") "?oo" = true.
Proof. repeat split. Qed.

Lemma Append_not_nil (msg : OscMessage) (argument : Argument) :
  argument <> ArgNil ->
  Append msg argument
    = ({| Address := Address msg; arguments := arguments msg ++ [argument] |},
       None).
Proof. intros H. destruct argument; try reflexivity. contradiction. Qed.

Lemma do_call_no_nil (msg : OscMessage) (call : message_call) :
  ~ In ArgNil (arguments msg) -> ~ In ArgNil (arguments (do_call msg call)).
Proof.
  intros Hmsg. destruct call as [argument| |]; simpl.
  - destruct argument; simpl; try assumption;
      (intros Hin; apply in_app_or in Hin; destruct Hin as [Hin|[Hin|[]]];
       [contradiction|discriminate]).
  - unfold Clear, ClearData; simpl. rewrite skipn_all. intros [].
  - unfold ClearData; simpl. rewrite skipn_all. intros [].
Qed.

Lemma fold_do_call_no_nil (calls : list message_call) (msg : OscMessage) :
  ~ In ArgNil (arguments msg) ->
  ~ In ArgNil (arguments (fold_left do_call calls msg)).
Proof.
  revert msg. induction calls as [|call calls IH]; intros msg Hmsg; simpl.
  - assumption.
  - apply IH, do_call_no_nil, Hmsg.
Qed.

(** C10. [Append] with the nil argument returns a nil error and leaves
    the message as it was; so no message made by [NewOscMessage] and any
    sequence of calls of [Append], [Clear] and [ClearData] holds a nil
    argument, although the encoder, given a message that holds one, emits
    the type tag N for it. *)
Theorem Append_nil_is_dropped :
  (forall msg : OscMessage, Append msg ArgNil = (msg, None)) /\
  (forall (address : string) (calls : list message_call),
      ~ In ArgNil (arguments (build address calls))) /\
  (forall address : string,
      OscMessage_ToByteArray {| Address := address; arguments := [ArgNil] |}
        = Ok (fst (writePaddedString ",N" (fst (writePaddedString address []))))).
Proof.
  split; [|split].
  - intros msg. reflexivity.
  - intros address calls. unfold build.
    apply fold_do_call_no_nil. simpl. intros [].
  - intros address. unfold OscMessage_ToByteArray. simpl.
    now rewrite app_nil_r.
Qed.

(** ** Decoding the arguments of a message *)

(** C6. In [readArguments] the tags T and F each read one byte of the
    input and append the boolean that byte encodes, and the tag N is
    rejected. With no byte after the tag string, the tags T and F end in
    [io.EOF] and N in "Unsupported type tag"; with the bytes 7, 0, 9 after
    the tag string ",TF", the first two of them are consumed, for [true]
    and [false]; with a zero byte after ",T", the value appended is
    [false]. *)
Theorem readArguments_bool_and_nil_tags :
  let msg := NewOscMessage "/a" in
  readArguments msg (bytes_of ",T" ++ [x00; x00]) = (Err EOF, []) /\
  readArguments msg (bytes_of ",F" ++ [x00; x00]) = (Err EOF, []) /\
  readArguments msg (bytes_of ",N" ++ [x00; x00])
    = (Err (ErrUnsupportedTypeTag "N"%byte), []) /\
  readArguments msg (bytes_of ",TF" ++ [x00] ++ [x07; x00; x09])
    = (Ok {| Address := "/a"; arguments := [ArgBool true; ArgBool false] |},
       [x09]) /\
  readArguments msg (bytes_of ",T" ++ [x00; x00] ++ [x00])
    = (Ok {| Address := "/a"; arguments := [ArgBool false] |}, []).
Proof. repeat split. Qed.

(** ** Encoding a message, then decoding it *)

(** C1. Four messages that [readMessage] does not give back from the
    bytes [ToByteArray] makes of them. A blob of three bytes comes back as
    an empty blob, with its eight bytes of payload left unread; the
    argument [true] ends the decoding in [io.EOF] and a nil argument in
    "Unsupported type tag"; an [OscTimetag] comes back as a pointer to an
    [OscTimetag], which is an argument of a type the encoder rejects. *)
Theorem readMessage_ToByteArray_counterexamples :
  let blob := {| Address := "/a"; arguments := [ArgBlob [x01; x02; x03]] |} in
  let yes := {| Address := "/a"; arguments := [ArgBool true] |} in
  let null := {| Address := "/a"; arguments := [ArgNil] |} in
  let tag := NewOscTimetag (GoTime.mkTime 1000000000 0) in
  let timed := {| Address := "/a"; arguments := [ArgTimetag tag] |} in
  ( OscMessage_ToByteArray blob
      = Ok (bytes_of "/a" ++ [x00; x00] ++ bytes_of ",b" ++ [x00; x00]
            ++ [x00; x00; x00; x03; x01; x02; x03; x00]) /\
    readMessage (bytes_of "/a" ++ [x00; x00] ++ bytes_of ",b" ++ [x00; x00]
                 ++ [x00; x00; x00; x03; x01; x02; x03; x00])
      = (Ok {| Address := "/a"; arguments := [ArgBlob []] |},
         [x00; x00; x00; x03; x01; x02; x03; x00]) ) /\
  ( OscMessage_ToByteArray yes
      = Ok (bytes_of "/a" ++ [x00; x00] ++ bytes_of ",T" ++ [x00; x00]) /\
    readMessage (bytes_of "/a" ++ [x00; x00] ++ bytes_of ",T" ++ [x00; x00])
      = (Err EOF, []) ) /\
  ( OscMessage_ToByteArray null
      = Ok (bytes_of "/a" ++ [x00; x00] ++ bytes_of ",N" ++ [x00; x00]) /\
    readMessage (bytes_of "/a" ++ [x00; x00] ++ bytes_of ",N" ++ [x00; x00])
      = (Err (ErrUnsupportedTypeTag "N"%byte), []) ) /\
  ( OscMessage_ToByteArray timed
      = Ok (bytes_of "/a" ++ [x00; x00] ++ bytes_of ",t" ++ [x00; x00]
            ++ be_bytes 8 (timeTag tag)) /\
    readMessage (bytes_of "/a" ++ [x00; x00] ++ bytes_of ",t" ++ [x00; x00]
                 ++ be_bytes 8 (timeTag tag))
      = (Ok {| Address := "/a"; arguments := [ArgTimetagPtr tag] |}, []) /\
    OscMessage_ToByteArray {| Address := "/a"; arguments := [ArgTimetagPtr tag] |}
      = Err (ErrUnsupportedType "*osc.OscTimetag") ).
Proof. vm_compute. repeat split. Qed.

(** ** Encoding a bundle, then decoding it *)

(** C2. The bundle made of the message "/a" and of a nested bundle that
    holds the message "/b" is encoded in 60 bytes; [readBundle] reads the
    first element, returns a bundle that holds the message "/a" and no
    bundle, and leaves the 32 bytes of the nested bundle unread. *)
Theorem readBundle_ToByteArray_counterexample :
  let t := GoTime.mkTime 1000000000 0 in
  let a := PacketMessage (NewOscMessage "/a") in
  let b := PacketMessage (NewOscMessage "/b") in
  let inner := OscBundle_Append (NewOscBundle t) b in
  let outer := OscBundle_Append (NewOscBundle t) a in
  let bundle := OscBundle_Append outer (PacketBundle inner) in
  exists (bs inner_bs : list byte),
    OscBundle_ToByteArray bundle = Ok bs /\
    OscBundle_ToByteArray inner = Ok inner_bs /\
    List.length bs = 60%nat /\
    readBundle bs = Some (Ok outer, be_bytes 4 28 ++ inner_bs) /\
    Bundles outer = [] /\
    Bundles bundle = [inner] /\
    outer <> bundle.
Proof.
  do 2 eexists.
  split; [vm_compute; reflexivity|].
  split; [vm_compute; reflexivity|].
  split; [reflexivity|].
  split; [vm_compute; reflexivity|].
  split; [reflexivity|].
  split; [reflexivity|].
  intros H. apply (f_equal Bundles) in H. discriminate H.
Qed.

(** ** Reading a datagram *)

Lemma Byte_eqb_neq (b c : byte) : b <> c -> Byte.eqb b c = false.
Proof.
  intros H. destruct (Byte.eqb b c) eqn:E; [|reflexivity].
  apply Byte.byte_dec_bl in E. contradiction.
Qed.

(** A datagram whose first byte is neither a slash nor a hash makes
    [readFromConnection] return a nil bundle and a nil error. *)
Lemma readFromConnection_other_first_byte
      (now : GoTime.Time) (b : byte) (rest : list byte) :
  b <> "/"%byte -> b <> "#"%byte ->
  readFromConnection now (Ok (b :: rest)) = Some (Ok None).
Proof.
  intros Hslash Hhash. unfold readFromConnection.
  change (firstn 1024 (b :: rest)) with (b :: firstn 1023 rest).
  cbn [app Peek1].
  now rewrite (Byte_eqb_neq _ _ Hslash), (Byte_eqb_neq _ _ Hhash).
Qed.

(** C8. For the datagram "xyz", whose first byte is neither a slash nor a
    hash, [readFromConnection] returns a nil bundle together with a nil
    error. *)
Theorem readFromConnection_xyz (now : GoTime.Time) :
  readFromConnection now (Ok (bytes_of "xyz")) = Some (Ok None).
Proof. apply readFromConnection_other_first_byte; discriminate. Qed.

(** ** [readBundle] returns *)

Lemma split_at_length (delim : byte) (bs s rest : list byte) :
  split_at delim bs = Some (s, rest) ->
  List.length bs = S (List.length s + List.length rest).
Proof.
  revert s rest. induction bs as [|b bs IH]; intros s rest H; simpl in H.
  - discriminate.
  - destruct (Byte.eqb b delim).
    + injection H as <- <-. reflexivity.
    + destruct (split_at delim bs) as [[s' rest']|]; [|discriminate].
      injection H as <- <-. simpl. f_equal. now apply IH.
Qed.

Lemma ReadString_shrinks (delim : byte) (reader reader' : Reader) (s : list byte) :
  ReadString delim reader = (Ok s, reader') ->
  (List.length reader' < List.length reader)%nat.
Proof.
  unfold ReadString. intros H.
  destruct (split_at delim reader) as [[s0 rest]|] eqn:E; [|discriminate].
  injection H as _ <-. apply split_at_length in E. lia.
Qed.

Lemma Read_le (n : Z) (reader reader' : Reader) (res : result Z) :
  Read n reader = (res, reader') ->
  (List.length reader' <= List.length reader)%nat.
Proof.
  unfold Read. intros H. destruct reader as [|b reader].
  - injection H as _ <-. reflexivity.
  - injection H as _ <-. rewrite length_skipn. lia.
Qed.

Lemma binary_Read_le (size : nat) (reader reader' : Reader)
      (res : result (list byte)) :
  binary_Read size reader = (res, reader') ->
  (List.length reader' <= List.length reader)%nat.
Proof.
  unfold binary_Read. intros H. destruct reader as [|b reader].
  - injection H as _ <-. reflexivity.
  - destruct (_ <? size)%nat; injection H as _ <-.
    + simpl. lia.
    + rewrite length_skipn. lia.
Qed.

Lemma readPaddedString_shrinks (reader reader' : Reader) (s : string) :
  readPaddedString reader = (Ok s, reader') ->
  (List.length reader' < List.length reader)%nat.
Proof.
  unfold readPaddedString, bind. intros H.
  destruct (ReadString x00 reader) as [[str| |] r1] eqn:E1; try discriminate.
  apply ReadString_shrinks in E1.
  destruct (0 <? _).
  - destruct (Read _ r1) as [[k| |] r2] eqn:E2; try discriminate.
    apply Read_le in E2. unfold ret in H. injection H as _ <-. lia.
  - unfold ret in H. injection H as _ <-. assumption.
Qed.

Lemma read_msgLen_le (reader reader' : Reader) (res : result Z) :
  read_msgLen reader = (res, reader') ->
  (List.length reader' <= List.length reader)%nat.
Proof.
  unfold read_msgLen. intros H.
  destruct (binary_Read 4 reader) as [[bs| |] r1] eqn:E;
    apply binary_Read_le in E; injection H as _ <-; assumption.
Qed.

Lemma Peek1_same (reader reader' : Reader) (b : byte) :
  Peek1 reader = (Ok b, reader') -> reader' = reader.
Proof.
  unfold Peek1. destruct reader; intros H; [discriminate|].
  now injection H as _ <-.
Qed.

Lemma readBundle_header_shrinks (reader reader' : Reader) (x : OscBundle * byte) :
  readBundle_header reader = (Ok x, reader') ->
  (List.length reader' < List.length reader)%nat.
Proof.
  unfold readBundle_header, bind. intros H.
  destruct (readPaddedString reader) as [[startTag| |] r1] eqn:E1;
    try discriminate.
  apply readPaddedString_shrinks in E1.
  destruct (negb _); [discriminate|].
  destruct (binary_Read 8 r1) as [[bs| |] r2] eqn:E2; try discriminate.
  apply binary_Read_le in E2.
  destruct (read_msgLen r2) as [[msgLen| |] r3] eqn:E3; try discriminate.
  apply read_msgLen_le in E3.
  destruct (msgLen <? 1); [discriminate|].
  destruct (Peek1 r3) as [[b| |] r4] eqn:E4; try discriminate.
  apply Peek1_same in E4. subst r4.
  unfold ret in H. injection H as _ <-. lia.
Qed.

(** With more units of fuel than there are bytes to read, [readBundle]
    comes to a result. *)
Lemma readBundle_fuel_enough (fuel : nat) (reader : Reader) :
  (List.length reader < fuel)%nat ->
  exists res, readBundle_fuel fuel reader = Some res.
Proof.
  revert reader. induction fuel as [|fuel IH]; intros reader Hlen; [lia|].
  simpl.
  destruct (readBundle_header reader) as [[[bundle buf0]| |] r1] eqn:E;
    try (eexists; reflexivity).
  apply readBundle_header_shrinks in E.
  destruct (Byte.eqb buf0 "/"%byte); [eexists; reflexivity|].
  destruct (Byte.eqb buf0 "#"%byte); [|eexists; reflexivity].
  destruct (IH r1 ltac:(lia)) as [[[b| |] r2] ->]; eexists; reflexivity.
Qed.

(** More fuel does not change a result. *)
Lemma readBundle_fuel_more (fuel fuel' : nat) (reader : Reader)
      (res : result OscBundle * Reader) :
  (fuel <= fuel')%nat ->
  readBundle_fuel fuel reader = Some res ->
  readBundle_fuel fuel' reader = Some res.
Proof.
  revert fuel' reader res.
  induction fuel as [|fuel IH]; intros fuel' reader res Hle H; [discriminate|].
  destruct fuel' as [|fuel']; [lia|].
  simpl in *.
  destruct (readBundle_header reader) as [[[bundle buf0]| |] r1];
    try assumption.
  destruct (Byte.eqb buf0 "/"%byte); [assumption|].
  destruct (Byte.eqb buf0 "#"%byte); [|assumption].
  destruct (readBundle_fuel fuel r1) as [res1|] eqn:E; [|discriminate].
  now rewrite (IH fuel' r1 res1 ltac:(lia) E).
Qed.

Lemma readBundle_returns (reader : Reader) :
  exists res, readBundle reader = Some res.
Proof. apply readBundle_fuel_enough. lia. Qed.

Lemma readFromConnection_returns (now : GoTime.Time) (recv : result (list byte)) :
  exists res, readFromConnection now recv = Some res.
Proof.
  unfold readFromConnection.
  destruct recv as [datagram|e|]; try (eexists; reflexivity).
  destruct (Peek1 _) as [[buf0| |] r1]; try (eexists; reflexivity).
  destruct (Byte.eqb buf0 "/"%byte).
  - destruct (readMessage r1) as [[msg| |] r2]; eexists; reflexivity.
  - destruct (Byte.eqb buf0 "#"%byte); [|eexists; reflexivity].
    destruct (readBundle_returns r1) as [[[b| |] r2] ->]; eexists; reflexivity.
Qed.

(** ** The client *)

Section SendProperties.

Context {UDPAddr UDPConn : Type}.
Variable ResolveUDPAddr : string -> option UDPAddr * option error.
Variable DialUDP : option UDPAddr -> result UDPConn.
Variable conn_Write : UDPConn -> list byte -> result Z.
Variable client : OscClient.
Variable packet : OscPacket.

Let addr : option UDPAddr :=
  fst (ResolveUDPAddr (host_port (ipaddress client) (port client))).

(** An error of [net.DialUDP] is returned, and nothing is written. *)
Lemma Send_dial_error (e : error) :
  DialUDP addr = Err e ->
  Send ResolveUDPAddr DialUDP conn_Write client packet = (Err e, []).
Proof.
  unfold Send, addr. destruct (ResolveUDPAddr _) as [a r]; simpl.
  now intros ->.
Qed.

(** An error of the encoder is returned, after the connection is
    closed. *)
Lemma Send_encode_error (conn : UDPConn) (e : error) :
  DialUDP addr = Ok conn ->
  ToByteArray packet = Err e ->
  Send ResolveUDPAddr DialUDP conn_Write client packet
    = (Err e, [CallClose conn]).
Proof.
  unfold Send, addr. destruct (ResolveUDPAddr _) as [a r]; simpl.
  now intros -> ->.
Qed.

(** An error of [conn.Write] is returned, after the connection is
    closed. *)
Lemma Send_write_error (conn : UDPConn) (data : list byte) (e : error) :
  DialUDP addr = Ok conn ->
  ToByteArray packet = Ok data ->
  conn_Write conn data = Err e ->
  Send ResolveUDPAddr DialUDP conn_Write client packet
    = (Err e, [CallWrite conn data; CallClose conn]).
Proof.
  unfold Send, addr. destruct (ResolveUDPAddr _) as [a r]; simpl.
  now intros -> -> ->.
Qed.

(** Otherwise the packet is written as one datagram and the connection
    is closed. *)
Lemma Send_ok (conn : UDPConn) (data : list byte) (n : Z) :
  DialUDP addr = Ok conn ->
  ToByteArray packet = Ok data ->
  conn_Write conn data = Ok n ->
  Send ResolveUDPAddr DialUDP conn_Write client packet
    = (Ok tt, [CallWrite conn data; CallClose conn]).
Proof.
  unfold Send, addr. destruct (ResolveUDPAddr _) as [a r]; simpl.
  now intros -> -> ->.
Qed.

End SendProperties.

(** ** Messages of numbers and strings come back *)

Lemma bind_Ok {A B : Type} (m : M A) (f : A -> M B)
      (reader reader' : Reader) (a : A) :
  m reader = (Ok a, reader') -> bind m f reader = f a reader'.
Proof. unfold bind. now intros ->. Qed.

Lemma firstn_length_app {A : Type} (l rest : list A) :
  firstn (List.length l) (l ++ rest) = l.
Proof.
  rewrite firstn_app, firstn_all, Nat.sub_diag. simpl. apply app_nil_r.
Qed.

Lemma skipn_length_app {A : Type} (l rest : list A) :
  skipn (List.length l) (l ++ rest) = rest.
Proof.
  rewrite skipn_app, skipn_all, Nat.sub_diag. reflexivity.
Qed.

Lemma Byte_eqb_refl (b : byte) : Byte.eqb b b = true.
Proof. now apply Byte.byte_dec_lb. Qed.

Lemma split_at_app (delim : byte) (bs rest : list byte) :
  ~ In delim bs -> split_at delim (bs ++ delim :: rest) = Some (bs, rest).
Proof.
  induction bs as [|b bs IH]; intros Hnot; simpl.
  - now rewrite Byte_eqb_refl.
  - rewrite Byte_eqb_neq by (intros ->; apply Hnot; now left).
    rewrite IH by (intros Hin; apply Hnot; now right).
    reflexivity.
Qed.

(** [readPaddedString] undoes [writePaddedString]. *)
Lemma readPaddedString_padded (s : string) (rest : Reader) :
  nul_free s -> fits s ->
  readPaddedString (bytes_of s ++ x00 :: padding s ++ rest) = (Ok s, rest).
Proof.
  intros Hnul Hfits. unfold fits in Hfits. unfold readPaddedString.
  assert (Hread : ReadString x00 (bytes_of s ++ x00 :: padding s ++ rest)
                  = (Ok (bytes_of s ++ [x00]), padding s ++ rest)).
  { unfold ReadString. now rewrite split_at_app. }
  rewrite (bind_Ok _ _ _ _ _ Hread).
  replace (firstn (List.length (bytes_of s ++ [x00]) - 1) (bytes_of s ++ [x00]))
    with (bytes_of s).
  2:{ rewrite length_app. simpl List.length.
      replace (List.length (bytes_of s) + 1 - 1)%nat
        with (List.length (bytes_of s)) by lia.
      now rewrite firstn_length_app. }
  rewrite length_bytes_of.
  set (L := Z.of_nat (String.length s)) in *.
  assert (HL : 0 <= L) by (unfold L; lia).
  assert (Hdm := Z.div_mod L 4 ltac:(lia)).
  assert (Hr := Z.mod_pos_bound L 4 ltac:(lia)).
  rewrite padBytesNeeded_spec by assumption.
  rewrite to_int_small by (unfold maxInt in *; lia).
  unfold padding. fold L.
  replace (4 * (L / 4 + 1) - L - 1) with (3 - L mod 4) by lia.
  unfold bytes_of. rewrite string_of_list_byte_of_string.
  destruct (0 <? 3 - L mod 4) eqn:Hpos.
  - apply Z.ltb_lt in Hpos.
    unfold bind, Read, ret.
    destruct (Z.to_nat (3 - L mod 4)) as [|k] eqn:Hk; [lia|].
    simpl app.
    change (x00 :: repeat x00 k ++ rest) with (repeat x00 (S k) ++ rest).
    replace (skipn (S k) (repeat x00 (S k) ++ rest)) with rest; [reflexivity|].
    rewrite <- (repeat_length x00 (S k)) at 1.
    now rewrite skipn_length_app.
  - apply Z.ltb_ge in Hpos.
    replace (3 - L mod 4) with 0 by lia. reflexivity.
Qed.

Lemma binary_Read_app (size : nat) (bs rest : list byte) :
  List.length bs = size -> size <> O ->
  binary_Read size (bs ++ rest) = (Ok bs, rest).
Proof.
  intros Hlen Hsize. unfold binary_Read.
  destruct (bs ++ rest) as [|b l] eqn:E.
  - destruct bs; [simpl in Hlen; congruence|discriminate].
  - rewrite <- E.
    replace (List.length (bs ++ rest) <? size)%nat with false
      by (symmetry; apply Nat.ltb_ge; rewrite length_app; lia).
    subst size. now rewrite firstn_length_app, skipn_length_app.
Qed.

Lemma Z_of_byte_of_Z (z : Z) : Z_of_byte (byte_of_Z z) = z mod 256.
Proof.
  unfold Z_of_byte, byte_of_Z.
  assert (Hr := Z.mod_pos_bound z 256 ltac:(lia)).
  destruct (Byte.of_N (Z.to_N (z mod 256))) as [b|] eqn:E.
  - apply Byte.to_of_N in E. rewrite E. lia.
  - apply Byte.of_N_None_iff in E. lia.
Qed.

Lemma fold_be_uint (bs : list byte) (acc : Z) :
  fold_left (fun acc b => acc * 256 + Z_of_byte b) bs acc
    = acc * 256 ^ Z.of_nat (List.length bs) + be_uint bs.
Proof.
  unfold be_uint. revert acc.
  induction bs as [|b bs IH]; intros acc.
  - simpl. lia.
  - cbn [fold_left List.length]. rewrite IH, (IH (0 * 256 + Z_of_byte b)).
    rewrite Nat2Z.inj_succ, Z.pow_succ_r by lia. ring.
Qed.

Lemma be_uint_cons (b : byte) (bs : list byte) :
  be_uint (b :: bs) = Z_of_byte b * 256 ^ Z.of_nat (List.length bs) + be_uint bs.
Proof.
  unfold be_uint at 1. cbn [fold_left]. rewrite fold_be_uint. ring.
Qed.

(** Reading back the [n] bytes written for [z] gives [z] modulo 2^(8n). *)
Lemma be_uint_be_bytes (n : nat) (z : Z) :
  be_uint (be_bytes n z) = z mod 2 ^ (8 * Z.of_nat n).
Proof.
  induction n as [|n IH].
  - simpl. now rewrite Z.mod_1_r.
  - cbn [be_bytes]. rewrite be_uint_cons, length_be_bytes, IH, Z_of_byte_of_Z.
    rewrite Z.shiftr_div_pow2 by lia.
    replace (8 * Z.of_nat (S n)) with (8 * Z.of_nat n + 8) by lia.
    rewrite Z.pow_add_r by lia.
    change (2 ^ 8) with 256.
    replace (256 ^ Z.of_nat n) with (2 ^ (8 * Z.of_nat n))
      by (rewrite Z.pow_mul_r by lia; reflexivity).
    rewrite Z.rem_mul_r by lia. lia.
Qed.

Lemma wrap_signed_mod (w z : Z) :
  0 < w -> wrap_signed w (z mod 2 ^ w) = wrap_signed w z.
Proof.
  intros Hw. unfold wrap_signed. now rewrite Zplus_mod_idemp_l.
Qed.

Lemma int32_wire (i : Z) :
  - 2 ^ 31 <= i < 2 ^ 31 ->
  to_int32 (be_uint (be_bytes 4 (to_int32 i))) = i.
Proof.
  intros Hi. rewrite be_uint_be_bytes, (to_int32_small i Hi).
  change (8 * Z.of_nat 4) with 32.
  unfold to_int32. rewrite wrap_signed_mod by lia.
  now apply to_int32_small.
Qed.

Lemma int64_wire (i : Z) :
  - 2 ^ 63 <= i < 2 ^ 63 ->
  to_int64 (be_uint (be_bytes 8 (to_int64 i))) = i.
Proof.
  intros Hi. rewrite be_uint_be_bytes, (to_int64_small i Hi).
  change (8 * Z.of_nat 8) with 64.
  unfold to_int64. rewrite wrap_signed_mod by lia.
  now apply to_int64_small.
Qed.

Lemma uint_wire (n : nat) (bits : Z) :
  0 <= bits < 2 ^ (8 * Z.of_nat n) -> be_uint (be_bytes n bits) = bits.
Proof. intros H. rewrite be_uint_be_bytes. now apply Z.mod_small. Qed.

Lemma writePaddedString_fst (s : string) (buff : list byte) :
  fits s ->
  fst (writePaddedString s buff) = buff ++ bytes_of s ++ x00 :: padding s.
Proof. intros H. now rewrite (writePaddedString_eq s buff H). Qed.

Ltac read_fixed size :=
  match goal with
  | |- context [bind (binary_Read size) ?f (be_bytes size ?z ++ ?rest)] =>
    rewrite (bind_Ok (binary_Read size) f _ _ _
               (binary_Read_app size (be_bytes size z) rest
                                (length_be_bytes size z) ltac:(discriminate)))
  end.

(** One argument: what the encoder appends for it is what one turn of the
    decoder's loop consumes, giving the argument back. *)
Lemma encode_decode_argument (arg : Argument) (typetags payload : list byte) :
  number_or_string arg ->
  exists (tag : byte) (bytes : list byte),
    encode_argument arg typetags payload
      = Ok (typetags ++ [tag], payload ++ bytes) /\
    tag <> x00 /\
    forall (tags : list byte) (msg : OscMessage) (rest : Reader),
      readArguments_loop (tag :: tags) msg (bytes ++ rest)
        = readArguments_loop tags
            {| Address := Address msg; arguments := arguments msg ++ [arg] |}
            rest.
Proof.
  destruct arg as [b| |i|bits|s|data|i|bits|t|t|name];
    simpl; intros H; try contradiction.
  - exists "i"%byte, (be_bytes 4 (to_int32 i)).
    split; [reflexivity|]. split; [discriminate|].
    intros tags msg rest. cbn [readArguments_loop].
    read_fixed 4%nat. now rewrite int32_wire.
  - exists "f"%byte, (be_bytes 4 bits).
    split; [reflexivity|]. split; [discriminate|].
    intros tags msg rest. cbn [readArguments_loop].
    read_fixed 4%nat. now rewrite uint_wire.
  - destruct H as [Hnul Hfits].
    exists "s"%byte, (bytes_of s ++ x00 :: padding s).
    split; [now rewrite writePaddedString_fst|]. split; [discriminate|].
    intros tags msg rest. cbn [readArguments_loop].
    rewrite <- app_assoc, <- app_comm_cons.
    now rewrite (bind_Ok _ _ _ _ _ (readPaddedString_padded s rest Hnul Hfits)).
  - exists "h"%byte, (be_bytes 8 (to_int64 i)).
    split; [reflexivity|]. split; [discriminate|].
    intros tags msg rest. cbn [readArguments_loop].
    read_fixed 8%nat. now rewrite int64_wire.
  - exists "d"%byte, (be_bytes 8 bits).
    split; [reflexivity|]. split; [discriminate|].
    intros tags msg rest. cbn [readArguments_loop].
    read_fixed 8%nat. now rewrite uint_wire.
Qed.

Lemma encode_decode_arguments (args : list Argument) :
  Forall number_or_string args ->
  forall typetags payload : list byte,
  exists tags bytes : list byte,
    encode_arguments args typetags payload
      = Ok (typetags ++ tags, payload ++ bytes) /\
    List.length tags = List.length args /\
    ~ In x00 tags /\
    forall (msg : OscMessage) (rest : Reader),
      readArguments_loop tags msg (bytes ++ rest)
        = (Ok {| Address := Address msg; arguments := arguments msg ++ args |},
           rest).
Proof.
  induction 1 as [|arg args Harg Hargs IH]; intros typetags payload.
  - exists [], []. rewrite !app_nil_r.
    split; [reflexivity|]. split; [reflexivity|]. split; [intros []|].
    intros [address arguments] rest. simpl. now rewrite app_nil_r.
  - destruct (encode_decode_argument arg typetags payload Harg)
      as (tag & bytes1 & Henc1 & Htag & Hdec1).
    destruct (IH (typetags ++ [tag]) (payload ++ bytes1))
      as (tags & bytes & Henc & Hlen & Hnul & Hdec).
    exists (tag :: tags), (bytes1 ++ bytes).
    split; [|split; [|split]].
    + cbn [encode_arguments]. rewrite Henc1, Henc.
      now rewrite <- !app_assoc.
    + simpl. congruence.
    + intros [Heq|Hin]; [now apply Htag|now apply Hnul].
    + intros msg rest. rewrite <- app_assoc, Hdec1, Hdec. simpl.
      now rewrite <- app_assoc.
Qed.

Lemma length_string_of_list_byte (bs : list byte) :
  String.length (string_of_list_byte bs) = List.length bs.
Proof.
  rewrite <- length_bytes_of. unfold bytes_of.
  now rewrite list_byte_of_string_of_list_byte.
Qed.

(** X29. For every message whose address has no zero byte and whose arguments
    are [int32], [int64], [float32], [float64] or [string] values,
    [ToByteArray] succeeds and [readMessage] reads the message back from
    its bytes, to the last byte. *)
Lemma readMessage_ToByteArray_numbers_and_strings (msg : OscMessage) :
  nul_free (Address msg) -> fits (Address msg) ->
  Z.of_nat (List.length (arguments msg)) + 5 <= maxInt ->
  Forall number_or_string (arguments msg) ->
  exists bs : list byte,
    OscMessage_ToByteArray msg = Ok bs /\ readMessage bs = (Ok msg, []).
Proof.
  intros Hnul Hfits Hcount Hargs.
  destruct (encode_decode_arguments (arguments msg) Hargs [","%byte] [])
    as (tags & bytes & Henc & Hlen & Htags & Hdec).
  set (typetags := string_of_list_byte ([","%byte] ++ tags)).
  assert (Hbytes : bytes_of typetags = ","%byte :: tags)
    by (unfold typetags, bytes_of; now rewrite list_byte_of_string_of_list_byte).
  assert (Hnul' : nul_free typetags).
  { unfold nul_free. rewrite Hbytes. intros [Heq|Hin];
      [discriminate|contradiction]. }
  assert (Hfits' : fits typetags).
  { unfold fits, typetags. rewrite length_string_of_list_byte.
    simpl List.length. lia. }
  unfold OscMessage_ToByteArray. rewrite Henc. fold typetags.
  rewrite (writePaddedString_fst _ _ Hfits'), (writePaddedString_fst _ _ Hfits).
  eexists. split; [reflexivity|].
  cbn [app]. unfold readMessage.
  repeat (rewrite <- app_assoc || rewrite <- app_comm_cons).
  rewrite (bind_Ok _ _ _ _ _ (readPaddedString_padded _ _ Hnul Hfits)).
  unfold readArguments.
  rewrite (bind_Ok _ _ _ _ _ (readPaddedString_padded _ _ Hnul' Hfits')).
  rewrite Hbytes, Byte_eqb_refl. cbn [negb].
  rewrite <- (app_nil_r bytes), Hdec.
  destruct msg as [address arguments]. reflexivity.
Qed.

Lemma readMessage_ToByteArray_numbers_and_strings_example :
  exists bs : list byte,
    OscMessage_ToByteArray
      (build "/synth/1/freq"
             [CallAppend (ArgInt32 (-5)); CallAppend (ArgString "hello");
              CallAppend (ArgInt64 (2 ^ 40)); CallAppend (ArgFloat32 0x3f800000);
              CallAppend (ArgFloat64 0x400921fb54442d18)]) = Ok bs /\
    readMessage bs
      = (Ok (build "/synth/1/freq"
               [CallAppend (ArgInt32 (-5)); CallAppend (ArgString "hello");
                CallAppend (ArgInt64 (2 ^ 40)); CallAppend (ArgFloat32 0x3f800000);
                CallAppend (ArgFloat64 0x400921fb54442d18)]), []).
Proof.
  apply readMessage_ToByteArray_numbers_and_strings.
  - vm_compute. intuition discriminate.
  - vm_compute. discriminate.
  - vm_compute. discriminate.
  - repeat constructor; vm_compute; try (intuition discriminate).
Defined.

(** ** A bundle of one message comes back *)

Lemma ntp_era_valid (t : GoTime.Time) : ntp_era t -> GoTime.valid t.
Proof.
  unfold ntp_era, GoTime.valid, secondsFrom1900To1970. intros [Hs Hn].
  split; [lia|assumption].
Qed.

(** Between 1900 and 2036 a time is read back from its timetag. *)
Lemma timetagToTime_timeToTimetag (t : GoTime.Time) :
  ntp_era t -> timetagToTime (timeToTimetag t) = t.
Proof.
  intros Hera. assert (Hv := ntp_era_valid t Hera).
  destruct Hera as [Hs Hn].
  unfold timetagToTime.
  rewrite timeToTimetag_high, timeToTimetag_low by assumption.
  rewrite (Z.mod_small _ _ Hs).
  replace (secondsFrom1900To1970 + GoTime.Time_Unix t - secondsFrom1900To1970)
    with (GoTime.Time_Unix t) by lia.
  unfold to_uint64, wrap_unsigned, to_int64.
  rewrite wrap_signed_mod by lia.
  fold to_int64.
  unfold secondsFrom1900To1970 in Hs.
  rewrite !to_int64_small by lia.
  unfold GoTime.Unix.
  replace (GoTime.Time_Nanosecond t <? 0) with false
    by (symmetry; apply Z.ltb_ge; lia).
  replace (1000000000 <=? GoTime.Time_Nanosecond t) with false
    by (symmetry; apply Z.leb_gt; lia).
  destruct t; reflexivity.
Qed.

Lemma timeToTimetag_range (t : GoTime.Time) :
  GoTime.valid t -> 0 <= timeToTimetag t < 2 ^ 64.
Proof.
  intros Hv. rewrite timeToTimetag_parts by assumption.
  destruct Hv as [_ Hn].
  assert (Hm := Z.mod_pos_bound
                  (secondsFrom1900To1970 + GoTime.Time_Unix t) (2 ^ 32)
                  ltac:(lia)).
  change (2 ^ 64) with (2 ^ 32 * 2 ^ 32). nia.
Qed.

Lemma readBundle_header_one (t : GoTime.Time) (len : Z) (b : byte) (bs : list byte) :
  ntp_era t -> 1 <= len < 2 ^ 31 ->
  readBundle_header
    (fst (writePaddedString "#bundle" [])
       ++ OscTimetag_ToByteArray (NewOscTimetag t)
       ++ be_bytes 4 (to_int32 len) ++ b :: bs)
    = (Ok (NewOscBundle t, b), b :: bs).
Proof.
  intros Hera Hlen. assert (Hv := ntp_era_valid t Hera).
  assert (Htt := timeToTimetag_range t Hv).
  unfold readBundle_header.
  change (fst (writePaddedString "#bundle" []))
    with (bytes_of "#bundle" ++ x00 :: padding "#bundle").
  repeat (rewrite <- app_assoc || rewrite <- app_comm_cons).
  rewrite (bind_Ok _ _ _ _ _ (readPaddedString_padded "#bundle" _
             ltac:(vm_compute; intuition discriminate)
             ltac:(vm_compute; discriminate))).
  cbn [String.eqb Ascii.eqb Bool.eqb negb andb].
  unfold OscTimetag_ToByteArray, NewOscTimetag. cbn [timeTag].
  read_fixed 8%nat.
  rewrite uint_wire by (change (8 * Z.of_nat 8) with 64; assumption).
  rewrite to_uint64_to_int64, (Z.mod_small _ _ Htt).
  rewrite timetagToTime_timeToTimetag by assumption.
  assert (Hmsg : read_msgLen (be_bytes 4 (to_int32 len) ++ b :: bs)
                 = (Ok len, b :: bs)).
  { unfold read_msgLen.
    rewrite binary_Read_app by (apply length_be_bytes || discriminate).
    rewrite int32_wire by lia. reflexivity. }
  rewrite (bind_Ok _ _ _ _ _ Hmsg).
  replace (len <? 1) with false by (symmetry; apply Z.ltb_ge; lia).
  reflexivity.
Qed.

(** When a message that starts with a slash is read back from its bytes,
    the bundle made of that message alone, for a time between 1900 and
    2036, is read back from its bytes. This is a property of [readBundle]
    with its last line (osc.go:685) read as the return of the bundle. *)
Lemma readBundle_ToByteArray_one_message
      (t : GoTime.Time) (m : OscMessage) (rest : list byte) :
  ntp_era t ->
  OscMessage_ToByteArray m = Ok ("/"%byte :: rest) ->
  readMessage ("/"%byte :: rest) = (Ok m, []) ->
  Z.of_nat (List.length ("/"%byte :: rest)) < 2 ^ 31 ->
  let bundle := OscBundle_Append (NewOscBundle t) (PacketMessage m) in
  exists bytes : list byte,
    OscBundle_ToByteArray bundle = Ok bytes /\
    readBundle bytes = Some (Ok bundle, []).
Proof.
  intros Hera Henc Hdec Hlen bundle.
  set (len := Z.of_nat (List.length ("/"%byte :: rest))) in *.
  exists (fst (writePaddedString "#bundle" [])
            ++ OscTimetag_ToByteArray (NewOscTimetag t)
            ++ be_bytes 4 (to_int32 len) ++ "/"%byte :: rest).
  split.
  - unfold bundle, NewOscBundle, OscBundle_Append.
    cbn [Timetag Messages Bundles app OscBundle_ToByteArray write_messages].
    rewrite Henc. fold len. now rewrite <- app_assoc.
  - unfold readBundle. cbn [readBundle_fuel].
    rewrite readBundle_header_one; [|assumption|].
    + cbn [Byte.eqb]. unfold bind. rewrite Hdec. reflexivity.
    + unfold len in *. cbn [List.length] in *. lia.
Qed.

Lemma readBundle_ToByteArray_one_message_example :
  let t := GoTime.mkTime 1000000000 999999999 in
  let bundle :=
    OscBundle_Append (NewOscBundle t)
      (PacketMessage (build "/a" [CallAppend (ArgInt32 7)])) in
  exists bytes : list byte,
    OscBundle_ToByteArray bundle = Ok bytes /\
    readBundle bytes = Some (Ok bundle, []).
Proof.
  apply (readBundle_ToByteArray_one_message
           (GoTime.mkTime 1000000000 999999999)
           (build "/a" [CallAppend (ArgInt32 7)])
           (bytes_of "a" ++ [x00; x00] ++ bytes_of ",i" ++ [x00; x00]
              ++ [x00; x00; x00; x07])).
  - vm_compute. intuition discriminate.
  - reflexivity.
  - reflexivity.
  - vm_compute. reflexivity.
Defined.

(** * Further properties of the code *)

(** ** The size of an encoding *)

Lemma writePaddedString_app (s : string) (buff : list byte) :
  fst (writePaddedString s buff) = buff ++ fst (writePaddedString s []).
Proof.
  unfold writePaddedString. destruct (0 <? _); cbn [fst app].
  - now rewrite <- app_assoc.
  - reflexivity.
Qed.

Lemma writeBlob_app (data buff : list byte) :
  fst (writeBlob data buff) = buff ++ fst (writeBlob data []).
Proof.
  unfold writeBlob. destruct (0 <? _); cbn [fst app];
    now rewrite <- ?app_assoc.
Qed.

Lemma Ok_inj {A : Type} (a b : A) : Ok a = Ok b -> a = b.
Proof. intros H. now injection H. Qed.

Lemma aligned_nil : aligned [].
Proof. reflexivity. Qed.

Lemma aligned_app (a b : list byte) : aligned a -> aligned b -> aligned (a ++ b).
Proof.
  unfold aligned. intros Ha Hb.
  rewrite length_app, Nat2Z.inj_add, Z.add_mod, Ha, Hb by lia. reflexivity.
Qed.

Lemma aligned_cons4 (b1 b2 b3 b4 : byte) (l : list byte) :
  aligned l -> aligned (b1 :: b2 :: b3 :: b4 :: l).
Proof.
  intros H. change (aligned ([b1; b2; b3; b4] ++ l)).
  now apply aligned_app.
Qed.

Lemma aligned_writePaddedString (s : string) :
  fits s -> aligned (fst (writePaddedString s [])).
Proof.
  intros Hfits. rewrite (writePaddedString_eq s [] Hfits).
  unfold aligned, padding. cbn [fst app].
  rewrite length_app, length_bytes_of. cbn [List.length].
  rewrite repeat_length.
  set (L := Z.of_nat (String.length s)).
  assert (HL : 0 <= L) by (unfold L; lia).
  assert (Hdm := Z.div_mod L 4 ltac:(lia)).
  assert (Hr := Z.mod_pos_bound L 4 ltac:(lia)).
  replace (Z.of_nat (String.length s + S (Z.to_nat (4 * (L / 4 + 1) - L - 1))))
    with ((L / 4 + 1) * 4) by (unfold L in *; lia).
  apply Z.mod_mul. lia.
Qed.

Lemma aligned_writeBlob (data : list byte) :
  Z.of_nat (List.length data) + 8 <= maxInt ->
  aligned (fst (writeBlob data [])).
Proof.
  intros H. unfold aligned. rewrite (writeBlob_length data H).
  set (N := Z.of_nat (List.length data)).
  assert (HN : 0 <= N) by (unfold N; lia).
  assert (Hdm := Z.div_mod N 4 ltac:(lia)).
  replace (4 + N + (4 - N mod 4)) with ((N / 4 + 2) * 4) by lia.
  apply Z.mod_mul. lia.
Qed.

(** What one argument adds to the tags and to the payload. *)
Lemma encode_argument_Ok (arg : Argument) (typetags payload tt' pl' : list byte) :
  arg_fits arg ->
  encode_argument arg typetags payload = Ok (tt', pl') ->
  exists bytes : list byte,
    tt' = typetags ++ [tag_of arg] /\ pl' = payload ++ bytes /\ aligned bytes.
Proof.
  intros Hfits H.
  destruct arg as [b| |i|bits|s|data|i|bits|t|t|name]; simpl in *;
    try discriminate;
    try (injection H as <- <-; eexists; repeat split; reflexivity).
  - destruct b; injection H as <- <-; exists []; rewrite app_nil_r;
      repeat split; try apply aligned_nil.
  - injection H as <- <-. exists []. rewrite app_nil_r.
    repeat split; try apply aligned_nil.
  - injection H as <- <-. exists (fst (writePaddedString s [])).
    rewrite writePaddedString_app.
    split; [reflexivity|split; [reflexivity|]].
    now apply aligned_writePaddedString.
  - injection H as <- <-. exists (fst (writeBlob data [])).
    rewrite writeBlob_app.
    split; [reflexivity|split; [reflexivity|]].
    now apply aligned_writeBlob.
Qed.

Lemma encode_arguments_Ok (args : list Argument) :
  Forall arg_fits args ->
  forall typetags payload tt' pl' : list byte,
  encode_arguments args typetags payload = Ok (tt', pl') ->
  exists bytes : list byte,
    tt' = typetags ++ map tag_of args /\ pl' = payload ++ bytes /\ aligned bytes.
Proof.
  induction 1 as [|arg args Harg Hargs IH]; intros typetags payload tt' pl' H.
  - injection H as <- <-. exists []. rewrite !app_nil_r.
    repeat split; try apply aligned_nil.
  - cbn [encode_arguments] in H.
    destruct (encode_argument arg typetags payload) as [[tt1 pl1]|e|] eqn:E;
      try discriminate.
    destruct (encode_argument_Ok _ _ _ _ _ Harg E) as (b1 & -> & -> & Hb1).
    destruct (IH _ _ _ _ H) as (b2 & -> & -> & Hb2).
    exists (b1 ++ b2). cbn [map]. rewrite <- !app_assoc.
    split; [reflexivity|split; [reflexivity|]]. now apply aligned_app.
Qed.

Lemma OscMessage_ToByteArray_aligned (msg : OscMessage) (bs : list byte) :
  msg_fits msg -> OscMessage_ToByteArray msg = Ok bs -> aligned bs.
Proof.
  intros (Haddr & Hcount & Hargs) H. unfold OscMessage_ToByteArray in H.
  destruct (encode_arguments (arguments msg) [","%byte] [])
    as [[tt pl]|e|] eqn:E; try discriminate.
  destruct (encode_arguments_Ok _ Hargs _ _ _ _ E) as (bytes & -> & -> & Hal).
  apply Ok_inj in H. subst bs. cbn [app].
  rewrite (writePaddedString_app _ (fst _)).
  apply aligned_app; [apply aligned_app|assumption].
  - exact (aligned_writePaddedString _ Haddr).
  - apply aligned_writePaddedString. unfold fits.
    rewrite <- length_bytes_of. unfold bytes_of.
    rewrite list_byte_of_string_of_list_byte. cbn [List.length].
    rewrite length_map. lia.
Qed.

(** X1. The bytes of a message are the padded address, the padded tag
    string, which is a comma and the tag of each argument in order, and a
    payload; their number is a multiple of four. *)
Theorem OscMessage_ToByteArray_layout (msg : OscMessage) (bs : list byte) :
  msg_fits msg ->
  OscMessage_ToByteArray msg = Ok bs ->
  aligned bs /\
  exists payload : list byte,
    aligned payload /\
    bs = fst (writePaddedString (Address msg) [])
           ++ fst (writePaddedString
                     (string_of_list_byte
                        (","%byte :: map tag_of (arguments msg))) [])
           ++ payload.
Proof.
  intros (Haddr & Hcount & Hargs) H. unfold OscMessage_ToByteArray in H.
  destruct (encode_arguments (arguments msg) [","%byte] [])
    as [[tt pl]|e|] eqn:E; try discriminate.
  destruct (encode_arguments_Ok _ Hargs _ _ _ _ E) as (bytes & -> & -> & Hal).
  apply Ok_inj in H. subst bs. cbn [app].
  rewrite (writePaddedString_app _ (fst _)), <- app_assoc.
  assert (Htags : aligned
            (fst (writePaddedString
                    (string_of_list_byte (","%byte :: map tag_of (arguments msg)))
                    []))).
  { apply aligned_writePaddedString. unfold fits.
    unfold bytes_of. rewrite <- length_bytes_of. unfold bytes_of.
    rewrite list_byte_of_string_of_list_byte. cbn [List.length].
    rewrite length_map. lia. }
  split.
  - apply aligned_app; [|apply aligned_app; assumption].
    exact (aligned_writePaddedString _ Haddr).
  - exists bytes. split; [assumption|reflexivity].
Qed.

Lemma OscMessage_ToByteArray_layout_witness :
  aligned (bytes_of "/a" ++ [x00; x00] ++ bytes_of ",is" ++ [x00]
             ++ [x00; x00; x00; x07] ++ bytes_of "hey" ++ [x00]) /\
  exists payload : list byte,
    aligned payload /\
    bytes_of "/a" ++ [x00; x00] ++ bytes_of ",is" ++ [x00]
      ++ [x00; x00; x00; x07] ++ bytes_of "hey" ++ [x00]
    = fst (writePaddedString
             (Address {| Address := "/a";
                         arguments := [ArgInt32 7; ArgString "hey"] |}) [])
        ++ fst (writePaddedString
                  (string_of_list_byte
                     (","%byte ::
                      map tag_of
                        (arguments
                           {| Address := "/a";
                              arguments := [ArgInt32 7; ArgString "hey"] |})))
                  [])
        ++ payload.
Proof.
  apply (OscMessage_ToByteArray_layout
           {| Address := "/a"; arguments := [ArgInt32 7; ArgString "hey"] |}).
  - split; [vm_compute; discriminate|].
    split; [vm_compute; discriminate|].
    constructor; [exact I|].
    constructor; [vm_compute; discriminate|constructor].
  - vm_compute. reflexivity.
Defined.

(** ** When encoding fails *)

Lemma encode_arguments_result (args : list Argument) (typetags payload : list byte) :
  match find unsupported args with
  | Some arg =>
    encode_arguments args typetags payload
      = Err (ErrUnsupportedType (type_name arg))
  | None =>
    exists tt' pl', encode_arguments args typetags payload = Ok (tt', pl')
  end.
Proof.
  revert typetags payload.
  induction args as [|arg args IH]; intros typetags payload.
  - simpl. eauto.
  - cbn [find encode_arguments].
    destruct arg as [b| |i|bits|s|data|i|bits|t|t|name];
      cbn [unsupported encode_argument type_name]; try reflexivity;
      try apply IH.
    destruct b; apply IH.
Qed.

Lemma OscMessage_ToByteArray_msg_error (msg : OscMessage) :
  match msg_error msg with
  | Some e => OscMessage_ToByteArray msg = Err e
  | None => exists bs : list byte, OscMessage_ToByteArray msg = Ok bs
  end.
Proof.
  unfold msg_error, OscMessage_ToByteArray.
  assert (H := encode_arguments_result (arguments msg) [","%byte] []).
  destruct (find unsupported (arguments msg)) as [arg|].
  - now rewrite H.
  - destruct H as (tt & pl & ->). eauto.
Qed.

(** X2. [ToByteArray] of a message fails exactly when one of the arguments
    has a type outside the encoder's switch; the error then names the type
    of the first such argument, whatever follows it. Otherwise it returns
    bytes; it never panics. *)
Theorem OscMessage_ToByteArray_result (msg : OscMessage) :
  match find unsupported (arguments msg) with
  | Some arg =>
    OscMessage_ToByteArray msg = Err (ErrUnsupportedType (type_name arg))
  | None => exists bs : list byte, OscMessage_ToByteArray msg = Ok bs
  end.
Proof.
  unfold OscMessage_ToByteArray.
  assert (H := encode_arguments_result (arguments msg) [","%byte] []).
  destruct (find unsupported (arguments msg)) as [arg|].
  - now rewrite H.
  - destruct H as (tt & pl & ->). eauto.
Qed.

(** ** Bundles: induction, size and errors of the encoding *)

Lemma OscBundle_induction (P : OscBundle -> Prop) :
  (forall (t : OscTimetag) (ms : list OscMessage) (bs : list OscBundle),
      Forall P bs -> P (mkOscBundle t ms bs)) ->
  forall b : OscBundle, P b.
Proof.
  intros H. fix IH 1. intros [t ms bs]. apply H.
  induction bs as [|b bs IHbs]; constructor; [apply IH|exact IHbs].
Qed.

Lemma bundle_fits_unfold (t : OscTimetag) (ms : list OscMessage)
      (bs : list OscBundle) :
  bundle_fits (mkOscBundle t ms bs)
  <-> Forall msg_fits ms /\ Forall bundle_fits bs.
Proof.
  cbn [bundle_fits]. split; intros [Hms Hbs]; (split; [assumption|]).
  - induction bs as [|b bs IH]; constructor; [apply Hbs|apply IH, Hbs].
  - induction Hbs as [|b bs Hb Hbs IH]; [exact I|split; assumption].
Qed.

Lemma OscBundle_ToByteArray_unfold (t : OscTimetag) (ms : list OscMessage)
      (bs : list OscBundle) :
  OscBundle_ToByteArray (mkOscBundle t ms bs)
  = match write_messages ms
            (fst (writePaddedString "#bundle" []) ++ OscTimetag_ToByteArray t)
    with
    | Ok data => write_bundles_with OscBundle_ToByteArray bs data
    | Err e => Err e
    | Panic => Panic
    end.
Proof. reflexivity. Qed.

Lemma write_messages_Ok (ms : list OscMessage) :
  Forall msg_fits ms ->
  forall data data' : list byte,
  write_messages ms data = Ok data' ->
  exists ext : list byte, data' = data ++ ext /\ aligned ext.
Proof.
  induction 1 as [|m ms Hm Hms IH]; intros data data' H.
  - apply Ok_inj in H. subst data'. exists []. rewrite app_nil_r. split; [reflexivity|apply aligned_nil].
  - cbn [write_messages] in H.
    destruct (OscMessage_ToByteArray m) as [msgBuf|e|] eqn:E; try discriminate.
    destruct (IH _ _ H) as (ext & -> & Hext).
    exists (be_bytes 4 (to_int32 (Z.of_nat (List.length msgBuf))) ++ msgBuf ++ ext).
    rewrite <- !app_assoc. split; [reflexivity|].
    apply (aligned_app (be_bytes 4 _)); [reflexivity|].
    apply aligned_app; [|assumption].
    exact (OscMessage_ToByteArray_aligned m msgBuf Hm E).
Qed.

Lemma write_bundles_with_Ok (enc : OscBundle -> result (list byte))
      (bs : list OscBundle) :
  Forall (fun b => forall bytes, enc b = Ok bytes -> aligned bytes) bs ->
  forall data data' : list byte,
  write_bundles_with enc bs data = Ok data' ->
  exists ext : list byte, data' = data ++ ext /\ aligned ext.
Proof.
  induction 1 as [|b bs Hb Hbs IH]; intros data data' H.
  - apply Ok_inj in H. subst data'. exists []. rewrite app_nil_r. split; [reflexivity|apply aligned_nil].
  - cbn [write_bundles_with] in H.
    destruct (enc b) as [bBuf|e|] eqn:E; try discriminate.
    destruct (IH _ _ H) as (ext & -> & Hext).
    exists (be_bytes 4 (to_int32 (Z.of_nat (List.length bBuf))) ++ bBuf ++ ext).
    rewrite <- !app_assoc. split; [reflexivity|].
    apply (aligned_app (be_bytes 4 _)); [reflexivity|].
    apply aligned_app; [|assumption].
    exact (Hb bBuf eq_refl).
Qed.

(** X3. The bytes of a bundle, at any depth of nesting, start with the
    eight bytes of "#bundle" and the eight bytes of the timetag, and their
    number is a multiple of four. *)
Theorem OscBundle_ToByteArray_layout (b : OscBundle) :
  bundle_fits b ->
  forall bytes : list byte,
  OscBundle_ToByteArray b = Ok bytes ->
  aligned bytes /\
  exists elements : list byte,
    bytes = bytes_of "#bundle" ++ [x00]
              ++ be_bytes 8 (timeTag (Timetag b)) ++ elements.
Proof.
  induction b as [t ms bs IH] using OscBundle_induction.
  intros Hfits bytes H.
  apply bundle_fits_unfold in Hfits. destruct Hfits as [Hms Hbs].
  rewrite OscBundle_ToByteArray_unfold in H.
  destruct (write_messages ms _) as [data|e|] eqn:E; try discriminate.
  destruct (write_messages_Ok ms Hms _ _ E) as (ext1 & -> & Hext1).
  assert (Hall : Forall (fun b => forall bytes,
                           OscBundle_ToByteArray b = Ok bytes -> aligned bytes)
                        bs).
  { clear H E. induction IH as [|b bs Hb _ IHbs]; constructor.
    - intros bytes' H'. apply Hb; [|assumption]. now inversion Hbs.
    - apply IHbs. now inversion Hbs. }
  destruct (write_bundles_with_Ok _ bs Hall _ _ H) as (ext2 & -> & Hext2).
  split.
  - apply aligned_app; [|assumption].
    apply aligned_app; [|assumption].
    apply (aligned_app (fst (writePaddedString "#bundle" []))); reflexivity.
  - exists (ext1 ++ ext2). cbn [Timetag]. unfold OscTimetag_ToByteArray.
    rewrite <- !app_assoc. reflexivity.
Qed.

Lemma OscBundle_ToByteArray_layout_witness :
  aligned (bytes_of "#bundle" ++ [x00]
             ++ [x00; x00; x00; x00; x00; x00; x00; x01]
             ++ [x00; x00; x00; x08] ++ bytes_of "/a" ++ [x00; x00]
             ++ bytes_of "," ++ [x00; x00; x00]) /\
  exists elements : list byte,
    bytes_of "#bundle" ++ [x00]
      ++ [x00; x00; x00; x00; x00; x00; x00; x01]
      ++ [x00; x00; x00; x08] ++ bytes_of "/a" ++ [x00; x00]
      ++ bytes_of "," ++ [x00; x00; x00]
    = bytes_of "#bundle" ++ [x00]
        ++ be_bytes 8
             (timeTag
                (Timetag
                   (mkOscBundle (mkOscTimetag 1 (GoTime.mkTime 0 0) 1)
                                [NewOscMessage "/a"] [])))
        ++ elements.
Proof.
  apply (OscBundle_ToByteArray_layout
           (mkOscBundle (mkOscTimetag 1 (GoTime.mkTime 0 0) 1)
                        [NewOscMessage "/a"] [])).
  - split; [|exact I]. constructor; [|constructor].
    split; [vm_compute; discriminate|].
    split; [vm_compute; discriminate|constructor].
  - vm_compute. reflexivity.
Defined.

Lemma first_error_app (a b : list OscMessage) :
  first_error (a ++ b)
  = match first_error a with
    | Some e => Some e
    | None => first_error b
    end.
Proof.
  induction a as [|m a IH]; cbn [app first_error]; [reflexivity|].
  destruct (msg_error m); [reflexivity|exact IH].
Qed.

Lemma write_messages_result (ms : list OscMessage) (data : list byte) :
  match first_error ms with
  | Some e => write_messages ms data = Err e
  | None => exists data', write_messages ms data = Ok data'
  end.
Proof.
  revert data. induction ms as [|m ms IH]; intros data.
  - simpl. eauto.
  - cbn [first_error write_messages].
    assert (Hm := OscMessage_ToByteArray_msg_error m).
    destruct (msg_error m) as [e|].
    + now rewrite Hm.
    + destruct Hm as (bs & ->). apply IH.
Qed.

Lemma write_bundles_with_result (enc : OscBundle -> result (list byte))
      (bs : list OscBundle) :
  Forall (fun b => match first_error (bundle_messages b) with
                   | Some e => enc b = Err e
                   | None => exists bytes, enc b = Ok bytes
                   end) bs ->
  forall data : list byte,
  match first_error (flat_map bundle_messages bs) with
  | Some e => write_bundles_with enc bs data = Err e
  | None => exists data', write_bundles_with enc bs data = Ok data'
  end.
Proof.
  induction 1 as [|b bs Hb Hbs IH]; intros data.
  - simpl. eauto.
  - cbn [flat_map write_bundles_with]. rewrite first_error_app.
    destruct (first_error (bundle_messages b)) as [e|].
    + now rewrite Hb.
    + destruct Hb as (bytes & ->). apply IH.
Qed.

(** On the bundles of the embedding, finite trees without a nil element,
    the encoder returns the first error among the messages, in the order
    of encoding, and bytes when there is none. *)
Lemma OscBundle_ToByteArray_first_error (b : OscBundle) :
  match first_error (bundle_messages b) with
  | Some e => OscBundle_ToByteArray b = Err e
  | None => exists bytes : list byte, OscBundle_ToByteArray b = Ok bytes
  end.
Proof.
  induction b as [t ms bs IH] using OscBundle_induction.
  rewrite OscBundle_ToByteArray_unfold.
  cbn [bundle_messages]. rewrite first_error_app.
  assert (Hms := write_messages_result ms
                   (fst (writePaddedString "#bundle" [])
                      ++ OscTimetag_ToByteArray t)).
  destruct (first_error ms) as [e|].
  - now rewrite Hms.
  - destruct Hms as (data & ->).
    apply (write_bundles_with_result OscBundle_ToByteArray bs IH).
Qed.

(** X4. When [ToByteArray] of a bundle returns an error, it is the error
    of the first message, in the order of encoding (the messages of a
    bundle before those of its nested bundles), that cannot be encoded;
    when it returns bytes, every message in the bundle can be encoded. *)
Theorem OscBundle_ToByteArray_error (b : OscBundle) :
  (forall e : error,
      OscBundle_ToByteArray b = Err e ->
      first_error (bundle_messages b) = Some e) /\
  (forall bytes : list byte,
      OscBundle_ToByteArray b = Ok bytes ->
      first_error (bundle_messages b) = None).
Proof.
  assert (H := OscBundle_ToByteArray_first_error b).
  destruct (first_error (bundle_messages b)) as [e'|].
  - split; [intros e He|intros bytes He]; congruence.
  - destruct H as (bs & Hbs). split; [intros e He|intros bytes He]; congruence.
Qed.

Lemma OscBundle_ToByteArray_error_witness :
  first_error
    (bundle_messages
       (mkOscBundle (mkOscTimetag 1 (GoTime.mkTime 0 0) 1)
          [NewOscMessage "/a"]
          [mkOscBundle (mkOscTimetag 1 (GoTime.mkTime 0 0) 1)
             [{| Address := "/b"; arguments := [ArgOther "int"] |};
              {| Address := "/c"; arguments := [ArgOther "uint"] |}] []]))
  = Some (ErrUnsupportedType "int").
Proof.
  apply (proj1 (OscBundle_ToByteArray_error
                  (mkOscBundle (mkOscTimetag 1 (GoTime.mkTime 0 0) 1)
                     [NewOscMessage "/a"]
                     [mkOscBundle (mkOscTimetag 1 (GoTime.mkTime 0 0) 1)
                        [{| Address := "/b"; arguments := [ArgOther "int"] |};
                         {| Address := "/c"; arguments := [ArgOther "uint"] |}]
                        []]))).
  vm_compute. reflexivity.
Defined.

(** X5. After any sequence of calls of [Append] on a bundle, its messages
    are its former messages followed by the messages appended, in order,
    and its bundles are its former bundles followed by the bundles
    appended, in order; the timetag is not changed. The order between a
    message and a bundle is not kept. *)
Theorem OscBundle_Append_partition (pcks : list OscPacket) (b : OscBundle) :
  let b' := fold_left OscBundle_Append pcks b in
  Timetag b' = Timetag b /\
  Messages b' = Messages b ++ packets_messages pcks /\
  Bundles b' = Bundles b ++ packets_bundles pcks.
Proof.
  revert b. induction pcks as [|pck pcks IH]; intros b; cbn [fold_left].
  - cbn. now rewrite !app_nil_r.
  - destruct (IH (OscBundle_Append b pck)) as (Ht & Hm & Hb).
    cbv zeta. rewrite Ht, Hm, Hb.
    destruct pck as [m|b0]; cbn; rewrite <- ?app_assoc; auto.
Qed.

(** ** Reading a padded string *)

Lemma length_padding (s : string) :
  Z.of_nat (List.length (padding s)) = 3 - Z.of_nat (String.length s) mod 4.
Proof.
  unfold padding. rewrite repeat_length.
  set (L := Z.of_nat (String.length s)).
  assert (HL : 0 <= L) by (unfold L; lia).
  assert (Hdm := Z.div_mod L 4 ltac:(lia)).
  assert (Hr := Z.mod_pos_bound L 4 ltac:(lia)).
  lia.
Qed.

(** [readPaddedString] on a string, its terminator and whatever follows:
    the bytes skipped as padding are the next 3 - L mod 4 bytes, or fewer
    when the input ends first, but at least one if any is due. *)
Lemma readPaddedString_steps (s : string) (after : Reader) :
  nul_free s -> fits s ->
  readPaddedString (bytes_of s ++ x00 :: after)
  = if 0 <? 3 - Z.of_nat (String.length s) mod 4 then
      match after with
      | [] => (Err EOF, [])
      | _ => (Ok s, skipn (Z.to_nat (3 - Z.of_nat (String.length s) mod 4)) after)
      end
    else (Ok s, after).
Proof.
  intros Hnul Hfits. unfold fits in Hfits. unfold readPaddedString.
  assert (Hread : ReadString x00 (bytes_of s ++ x00 :: after)
                  = (Ok (bytes_of s ++ [x00]), after)).
  { unfold ReadString. now rewrite split_at_app. }
  rewrite (bind_Ok _ _ _ _ _ Hread).
  replace (firstn (List.length (bytes_of s ++ [x00]) - 1) (bytes_of s ++ [x00]))
    with (bytes_of s).
  2:{ rewrite length_app. simpl List.length.
      replace (List.length (bytes_of s) + 1 - 1)%nat
        with (List.length (bytes_of s)) by lia.
      now rewrite firstn_length_app. }
  rewrite length_bytes_of.
  set (L := Z.of_nat (String.length s)) in *.
  assert (HL : 0 <= L) by (unfold L; lia).
  assert (Hdm := Z.div_mod L 4 ltac:(lia)).
  assert (Hr := Z.mod_pos_bound L 4 ltac:(lia)).
  rewrite padBytesNeeded_spec by assumption.
  rewrite to_int_small by (unfold maxInt in *; lia).
  replace (4 * (L / 4 + 1) - L - 1) with (3 - L mod 4) by lia.
  unfold bytes_of. rewrite string_of_list_byte_of_string.
  destruct (0 <? 3 - L mod 4); [|reflexivity].
  destruct after as [|b after]; reflexivity.
Qed.

Lemma split_at_None (delim : byte) (bs : list byte) :
  ~ In delim bs -> split_at delim bs = None.
Proof.
  induction bs as [|b bs IH]; intros Hnot; [reflexivity|].
  cbn [split_at].
  rewrite Byte_eqb_neq by (intros ->; apply Hnot; now left).
  rewrite IH by (intros Hin; apply Hnot; now right).
  reflexivity.
Qed.

Lemma split_at_Some (delim : byte) (bs s rest : list byte) :
  split_at delim bs = Some (s, rest) ->
  bs = s ++ delim :: rest /\ ~ In delim s.
Proof.
  revert s rest. induction bs as [|b bs IH]; intros s rest H; [discriminate|].
  cbn [split_at] in H.
  destruct (Byte.eqb b delim) eqn:Eb.
  - apply Byte.byte_dec_bl in Eb. subst b.
    assert (s = [] /\ rest = bs) as [-> ->] by (split; congruence).
    split; [reflexivity|intros []].
  - destruct (split_at delim bs) as [[s' rest']|]; [|discriminate].
    assert (s = b :: s' /\ rest = rest') as [-> ->] by (split; congruence).
    destruct (IH s' rest' eq_refl) as [-> Hnot].
    split; [reflexivity|].
    intros [Heq|Hin]; [|contradiction].
    subst b. now rewrite Byte_eqb_refl in Eb.
Qed.

(** When the input holds no zero byte, [readPaddedString] fails with
    [io.EOF] and the whole input is consumed. *)
Theorem readPaddedString_no_terminator (reader : Reader) :
  ~ In x00 reader -> readPaddedString reader = (Err EOF, []).
Proof.
  intros Hnot. unfold readPaddedString, bind, ReadString.
  now rewrite split_at_None.
Qed.

Lemma readPaddedString_no_terminator_witness :
  readPaddedString (bytes_of "/osc/address") = (Err EOF, []).
Proof.
  apply (readPaddedString_no_terminator (bytes_of "/osc/address")).
  vm_compute. intuition discriminate.
Defined.

(** X6. [readPaddedString] does not look at the padding: after the string
    and its terminator it skips as many bytes as the padding is long,
    whatever their values, and returns the string. *)
Theorem readPaddedString_any_padding (s : string) (pad rest : list byte) :
  nul_free s -> fits s ->
  List.length pad = List.length (padding s) ->
  readPaddedString (bytes_of s ++ x00 :: pad ++ rest) = (Ok s, rest).
Proof.
  intros Hnul Hfits Hlen.
  rewrite (readPaddedString_steps s (pad ++ rest) Hnul Hfits).
  assert (Hpad := length_padding s). rewrite <- Hlen in Hpad.
  rewrite <- Hpad.
  destruct (0 <? Z.of_nat (List.length pad)) eqn:Hpos.
  - apply Z.ltb_lt in Hpos. rewrite Nat2Z.id, skipn_length_app.
    destruct pad as [|b pad]; [simpl in Hpos; lia|reflexivity].
  - apply Z.ltb_ge in Hpos.
    destruct pad as [|b pad]; [reflexivity|simpl List.length in Hpos; lia].
Qed.

Lemma readPaddedString_any_padding_witness :
  readPaddedString (bytes_of "ab" ++ x00 :: [xff] ++ [x01; x02])
  = (Ok "ab"%string, [x01; x02]).
Proof.
  apply (readPaddedString_any_padding "ab" [xff] [x01; x02]).
  - vm_compute. intuition discriminate.
  - vm_compute. discriminate.
  - reflexivity.
Defined.

(** X7. At the end of the input: when the terminator is the last byte
    and padding is due, [readPaddedString] fails with [io.EOF]; when at
    least one byte of the padding is there, it returns the string, also
    if the padding is cut short. *)
Theorem readPaddedString_end_of_input (s : string) :
  nul_free s -> fits s ->
  padding s <> [] ->
  readPaddedString (bytes_of s ++ [x00]) = (Err EOF, []) /\
  forall pad : list byte,
    pad <> [] -> (List.length pad <= List.length (padding s))%nat ->
    readPaddedString (bytes_of s ++ x00 :: pad) = (Ok s, []).
Proof.
  intros Hnul Hfits Hdue.
  assert (Hpad := length_padding s).
  assert (Hpos : 0 < 3 - Z.of_nat (String.length s) mod 4).
  { rewrite <- Hpad. destruct (padding s); [contradiction|simpl; lia]. }
  split.
  - rewrite (readPaddedString_steps s [] Hnul Hfits).
    now replace (0 <? 3 - Z.of_nat (String.length s) mod 4) with true
      by (symmetry; apply Z.ltb_lt; exact Hpos).
  - intros pad Hne Hlen.
    rewrite (readPaddedString_steps s pad Hnul Hfits).
    replace (0 <? 3 - Z.of_nat (String.length s) mod 4) with true
      by (symmetry; apply Z.ltb_lt; exact Hpos).
    destruct pad as [|b pad]; [contradiction|].
    f_equal. apply skipn_all2. lia.
Qed.

Lemma readPaddedString_end_of_input_witness :
  readPaddedString (bytes_of "a" ++ [x00]) = (Err EOF, []) /\
  forall pad : list byte,
    pad <> [] -> (List.length pad <= List.length (padding "a"))%nat ->
    readPaddedString (bytes_of "a" ++ x00 :: pad) = (Ok "a"%string, []).
Proof.
  apply (readPaddedString_end_of_input "a").
  - vm_compute. intuition discriminate.
  - vm_compute. discriminate.
  - vm_compute. discriminate.
Defined.

(** X8. What a successful [readPaddedString] has read: the string
    returned holds no zero byte, and the input was that string, a zero
    byte, at most three more bytes, and the input that is left. *)
Theorem readPaddedString_consumed (reader reader' : Reader) (s : string) :
  Z.of_nat (List.length reader) + 4 <= maxInt ->
  readPaddedString reader = (Ok s, reader') ->
  nul_free s /\
  exists pad : list byte,
    reader = bytes_of s ++ x00 :: pad ++ reader' /\
    (List.length pad <= List.length (padding s))%nat.
Proof.
  intros Hmax H. unfold readPaddedString, bind, ReadString in H.
  destruct (split_at x00 reader) as [[str after]|] eqn:E; [|discriminate].
  apply split_at_Some in E. destruct E as [-> Hnot].
  replace (firstn (List.length (str ++ [x00]) - 1) (str ++ [x00]))
    with str in H.
  2:{ rewrite length_app. simpl List.length.
      replace (List.length str + 1 - 1)%nat with (List.length str) by lia.
      now rewrite firstn_length_app. }
  assert (Hs : bytes_of (string_of_list_byte str) = str)
    by (unfold bytes_of; apply list_byte_of_string_of_list_byte).
  assert (HL : String.length (string_of_list_byte str) = List.length str)
    by apply length_string_of_list_byte.
  assert (Hfit : Z.of_nat (List.length str) + 4 <= maxInt)
    by (rewrite length_app in Hmax; lia).
  assert (Hpad := length_padding (string_of_list_byte str)).
  rewrite HL in Hpad.
  set (L := Z.of_nat (List.length str)) in *.
  assert (HL0 : 0 <= L) by (unfold L; lia).
  assert (Hdm := Z.div_mod L 4 ltac:(lia)).
  assert (Hr := Z.mod_pos_bound L 4 ltac:(lia)).
  rewrite padBytesNeeded_spec in H by assumption.
  rewrite to_int_small in H by (unfold maxInt in *; lia).
  replace (4 * (L / 4 + 1) - L - 1) with (3 - L mod 4) in H by lia.
  destruct (0 <? 3 - L mod 4) eqn:Hpos.
  - unfold Read, ret in H.
    destruct after as [|b after]; [discriminate|].
    assert (Heq : string_of_list_byte str = s /\
                  skipn (Z.to_nat (3 - L mod 4)) (b :: after) = reader')
      by (split; congruence).
    destruct Heq as [<- <-].
    split; [unfold nul_free; now rewrite Hs|].
    exists (firstn (Z.to_nat (3 - L mod 4)) (b :: after)).
    rewrite Hs, firstn_skipn. split; [reflexivity|].
    rewrite length_firstn. lia.
  - unfold ret in H.
    assert (Heq : string_of_list_byte str = s /\ after = reader')
      by (split; congruence).
    destruct Heq as [<- <-].
    split; [unfold nul_free; now rewrite Hs|].
    exists []. rewrite Hs. split; [reflexivity|simpl; lia].
Qed.

Lemma readPaddedString_consumed_witness :
  nul_free "ab" /\
  exists pad : list byte,
    bytes_of "ab" ++ [x00; xff; x01] = bytes_of "ab" ++ x00 :: pad ++ [x01] /\
    (List.length pad <= List.length (padding "ab"))%nat.
Proof.
  apply (readPaddedString_consumed (bytes_of "ab" ++ [x00; xff; x01]) [x01] "ab").
  - vm_compute. discriminate.
  - reflexivity.
Defined.

(** ** Reading the arguments of a message *)

Lemma bind_inv {A B : Type} (m : M A) (f : A -> M B)
      (reader reader' : Reader) (b : B) :
  bind m f reader = (Ok b, reader') ->
  exists (a : A) (r1 : Reader), m reader = (Ok a, r1) /\ f a r1 = (Ok b, reader').
Proof.
  unfold bind. destruct (m reader) as [[a| |] r1]; intros H; try discriminate.
  eauto.
Qed.

(** X9. An ASCII tag for which [readArguments] has no case stops the
    decoding with "Unsupported type tag" and the tag, when the loop comes
    to it; nothing more is read. The tags with a case are i, h, f, d, s,
    b, t, T and F. *)
Theorem readArguments_loop_unsupported_tag
        (c : byte) (tags : list byte) (msg : OscMessage) (reader : Reader) :
  (Byte.to_N c < 128)%N ->
  ~ In c decoder_tags ->
  readArguments_loop (c :: tags) msg reader
  = (Err (ErrUnsupportedTypeTag c), reader).
Proof.
  intros _ H.
  destruct c; try reflexivity;
    exfalso; apply H; unfold decoder_tags; simpl; auto 12.
Qed.

Lemma readArguments_loop_unsupported_tag_witness :
  readArguments_loop ("r"%byte :: ["i"%byte]) (NewOscMessage "/color")
                     [xff; x00; x00; xff; x00; x00; x00; x01]
  = (Err (ErrUnsupportedTypeTag "r"%byte),
     [xff; x00; x00; xff; x00; x00; x00; x01]).
Proof.
  apply (readArguments_loop_unsupported_tag "r"%byte).
  - vm_compute. reflexivity.
  - vm_compute. intuition discriminate.
Defined.

(** X10. With fewer than eight bytes left, the tag t ends the decoding of
    the arguments without an error: the function returns nil, the message
    keeps the arguments read so far, and the tags that follow are not
    looked at. For the tags h and d the same input is an error. *)
Theorem readArguments_loop_truncated
        (tags : list byte) (msg : OscMessage) (reader : Reader) :
  (List.length reader < 8)%nat ->
  readArguments_loop ("t"%byte :: tags) msg reader = (Ok msg, []) /\
  readArguments_loop ("h"%byte :: tags) msg reader
  = (Err (match reader with [] => EOF | _ => ErrUnexpectedEOF end), []) /\
  readArguments_loop ("d"%byte :: tags) msg reader
  = (Err (match reader with [] => EOF | _ => ErrUnexpectedEOF end), []).
Proof.
  intros Hlen. cbn [readArguments_loop]. unfold bind, binary_Read.
  destruct reader as [|b reader]; [repeat split|].
  replace (List.length (b :: reader) <? 8)%nat with true
    by (symmetry; now apply Nat.ltb_lt).
  repeat split.
Qed.

Lemma readArguments_loop_truncated_witness :
  readArguments_loop ("t"%byte :: ["i"%byte]) (NewOscMessage "/a")
                     [x00; x00; x00; x01] = (Ok (NewOscMessage "/a"), []) /\
  readArguments_loop ("h"%byte :: ["i"%byte]) (NewOscMessage "/a")
                     [x00; x00; x00; x01] = (Err ErrUnexpectedEOF, []) /\
  readArguments_loop ("d"%byte :: ["i"%byte]) (NewOscMessage "/a")
                     [x00; x00; x00; x01] = (Err ErrUnexpectedEOF, []).
Proof.
  apply (readArguments_loop_truncated ["i"%byte] (NewOscMessage "/a")
                                      [x00; x00; x00; x01]).
  simpl. lia.
Defined.

Lemma nul_free_empty : nul_free EmptyString.
Proof. intros []. Qed.

Lemma fits_empty : fits EmptyString.
Proof. unfold fits. vm_compute. discriminate. Qed.

(** An empty tag string: [typetags[0]] panics. *)
Lemma readArguments_no_tags (msg : OscMessage) (b : byte) (rest : Reader) :
  readArguments msg (x00 :: b :: rest) = (Panic, skipn 2 rest).
Proof.
  unfold readArguments.
  assert (H : readPaddedString (x00 :: b :: rest)
              = (Ok EmptyString, skipn 2 rest)).
  { change (x00 :: b :: rest) with (bytes_of EmptyString ++ x00 :: b :: rest).
    rewrite (readPaddedString_steps EmptyString (b :: rest)
               nul_free_empty fits_empty).
    reflexivity. }
  now rewrite (bind_Ok _ _ _ _ _ H).
Qed.

Lemma length_padded (s : string) :
  fits s ->
  Z.of_nat (List.length (bytes_of s ++ x00 :: padding s))
  = 4 * (Z.of_nat (String.length s) / 4 + 1).
Proof.
  intros Hfits. rewrite length_app, length_bytes_of. cbn [List.length].
  assert (Hpad := length_padding s).
  set (L := Z.of_nat (String.length s)) in *.
  assert (HL : 0 <= L) by (unfold L; lia).
  assert (Hdm := Z.div_mod L 4 ltac:(lia)).
  assert (Hr := Z.mod_pos_bound L 4 ltac:(lia)).
  unfold L in *. lia.
Qed.

(** X11. A datagram of at most 1024 bytes in which the padded address of
    a message is followed by an empty tag string, a zero byte and at least
    one byte more, makes [readFromConnection] panic: the first character
    of the tag string is taken, and there is none. This is so whether the
    reader is made from the whole buffer or from the bytes received. *)
Theorem readFromConnection_empty_tag_string
        (now : GoTime.Time) (address : string) (b : byte) (rest : list byte) :
  let datagram :=
    fst (writePaddedString (String "/" address) []) ++ x00 :: b :: rest in
  nul_free (String "/" address) -> fits (String "/" address) ->
  (List.length datagram <= 1024)%nat ->
  readFromConnection now (Ok datagram) = Some Panic /\
  readFromConnection_n now (Ok datagram) = Some Panic.
Proof.
  intros datagram Hnul Hfits Hlen.
  set (a := String "/" address) in *.
  unfold datagram in *. clear datagram.
  rewrite (writePaddedString_fst a [] Hfits) in *. cbn [app] in *.
  assert (Hpeek : forall after : Reader,
             Peek1 ((bytes_of a ++ x00 :: padding a) ++ after)
             = (Ok "/"%byte, (bytes_of a ++ x00 :: padding a) ++ after))
    by reflexivity.
  assert (Hmsg : forall after : Reader,
             readMessage ((bytes_of a ++ x00 :: padding a)
                            ++ x00 :: b :: after)
             = (Panic, skipn 2 after)).
  { intros after. unfold readMessage.
    rewrite <- app_assoc, <- app_comm_cons.
    rewrite (bind_Ok _ _ _ _ _ (readPaddedString_padded a _ Hnul Hfits)).
    apply readArguments_no_tags. }
  remember (bytes_of a ++ x00 :: padding a) as d eqn:Hd.
  split.
  - unfold readFromConnection. cbv zeta.
    rewrite (firstn_all2 (n := 1024) (d ++ x00 :: b :: rest)) by lia.
    rewrite <- app_assoc, <- !app_comm_cons.
    rewrite Hpeek, Byte_eqb_refl, Hmsg. reflexivity.
  - unfold readFromConnection_n. cbv zeta.
    rewrite (firstn_all2 (n := 1024) (d ++ x00 :: b :: rest)) by lia.
    rewrite Hpeek, Byte_eqb_refl, Hmsg. reflexivity.
Qed.

Lemma readFromConnection_empty_tag_string_witness :
  readFromConnection (GoTime.mkTime 0 0)
    (Ok (fst (writePaddedString (String "/" "ping") [])
           ++ x00 :: x00 :: [x00; x00])) = Some Panic /\
  readFromConnection_n (GoTime.mkTime 0 0)
    (Ok (fst (writePaddedString (String "/" "ping") [])
           ++ x00 :: x00 :: [x00; x00])) = Some Panic.
Proof.
  apply (readFromConnection_empty_tag_string (GoTime.mkTime 0 0) "ping"
                                             x00 [x00; x00]).
  - vm_compute. intuition discriminate.
  - vm_compute. discriminate.
  - vm_compute. lia.
Defined.

(** X12. A tag string that does not start with a comma is rejected with
    "Unsupported type tag string", and nothing after it is read. *)
Theorem readArguments_no_comma
        (msg : OscMessage) (c : ascii) (s : string) (rest : Reader) :
  byte_of_ascii c <> ","%byte ->
  nul_free (String c s) -> fits (String c s) ->
  readArguments msg
    (bytes_of (String c s) ++ x00 :: padding (String c s) ++ rest)
  = (Err ErrUnsupportedTypeTagString, rest).
Proof.
  intros Hc Hnul Hfits. unfold readArguments.
  rewrite (bind_Ok _ _ _ _ _ (readPaddedString_padded _ rest Hnul Hfits)).
  change (bytes_of (String c s)) with (byte_of_ascii c :: bytes_of s).
  cbv iota. now rewrite (Byte_eqb_neq _ _ Hc).
Qed.

Lemma readArguments_no_comma_witness :
  readArguments (NewOscMessage "/a")
    (bytes_of (String "i" "i") ++ x00 :: padding (String "i" "i")
       ++ [x00; x00; x00; x01])
  = (Err ErrUnsupportedTypeTagString, [x00; x00; x00; x01]).
Proof.
  apply (readArguments_no_comma (NewOscMessage "/a") "i" "i" [x00; x00; x00; x01]).
  - vm_compute. discriminate.
  - vm_compute. intuition discriminate.
  - vm_compute. discriminate.
Defined.

(** ** What a decoded message holds *)

Lemma Z_of_byte_range (b : byte) : 0 <= Z_of_byte b < 256.
Proof.
  unfold Z_of_byte. assert (H := Byte.to_N_bounded b). lia.
Qed.

Lemma be_uint_range (bs : list byte) :
  0 <= be_uint bs < 256 ^ Z.of_nat (List.length bs).
Proof.
  induction bs as [|b bs IH].
  - change (0 <= 0 < 1). lia.
  - rewrite be_uint_cons. cbn [List.length].
    rewrite Nat2Z.inj_succ, Z.pow_succ_r by lia.
    assert (Hb := Z_of_byte_range b).
    assert (Hp : 0 < 256 ^ Z.of_nat (List.length bs))
      by (apply Z.pow_pos_nonneg; lia).
    nia.
Qed.

Lemma binary_Read_Ok (size : nat) (reader reader' : Reader) (bs : list byte) :
  binary_Read size reader = (Ok bs, reader') ->
  List.length bs = size /\ reader = bs ++ reader'.
Proof.
  unfold binary_Read. destruct reader as [|b reader]; [discriminate|].
  destruct (List.length (b :: reader) <? size)%nat eqn:E; [discriminate|].
  apply Nat.ltb_ge in E. intros H.
  assert (Heq : firstn size (b :: reader) = bs /\
                skipn size (b :: reader) = reader') by (split; congruence).
  destruct Heq as [<- <-]. split.
  - rewrite length_firstn. lia.
  - symmetry. apply firstn_skipn.
Qed.

Lemma wrap_signed_range (w z : Z) :
  0 < w -> - 2 ^ (w - 1) <= wrap_signed w z < 2 ^ (w - 1).
Proof.
  intros Hw. unfold wrap_signed.
  assert (Hpow : 2 ^ w = 2 * 2 ^ (w - 1)).
  { replace w with (Z.succ (w - 1)) at 1 by lia.
    rewrite Z.pow_succ_r by lia. reflexivity. }
  assert (Hpos : 0 < 2 ^ (w - 1)) by (apply Z.pow_pos_nonneg; lia).
  assert (Hm := Z.mod_pos_bound (z + 2 ^ (w - 1)) (2 ^ w) ltac:(lia)).
  lia.
Qed.

Lemma readPaddedString_nul_free (reader reader' : Reader) (s : string) :
  readPaddedString reader = (Ok s, reader') -> nul_free s.
Proof.
  unfold readPaddedString, bind, ReadString. intros H.
  destruct (split_at x00 reader) as [[str after]|] eqn:E; [|discriminate].
  apply split_at_Some in E. destruct E as [_ Hnot].
  replace (firstn (List.length (str ++ [x00]) - 1) (str ++ [x00]))
    with str in H.
  2:{ rewrite length_app. simpl List.length.
      replace (List.length str + 1 - 1)%nat with (List.length str) by lia.
      now rewrite firstn_length_app. }
  assert (Hs : string_of_list_byte str = s).
  { destruct (0 <? _) in H.
    - destruct (Read _ after) as [[k| |] r2]; try discriminate.
      unfold ret in H. congruence.
    - unfold ret in H. congruence. }
  subst s. unfold nul_free, bytes_of.
  now rewrite list_byte_of_string_of_list_byte.
Qed.

Lemma Forall_snoc {A : Type} (P : A -> Prop) (l : list A) (a : A) :
  Forall P l -> P a -> Forall P (l ++ [a]).
Proof. intros Hl Ha. apply Forall_app. split; [assumption|now constructor]. Qed.

Ltac read_number H IH :=
  let bs := fresh "bs" in
  let r1 := fresh "r1" in
  let Hread := fresh "Hread" in
  let Hlen := fresh "Hlen" in
  apply bind_inv in H; destruct H as (bs & r1 & Hread & H);
  apply binary_Read_Ok in Hread; destruct Hread as [Hlen _];
  apply IH in H; [exact H|];
  apply Forall_snoc; [assumption|];
  cbn [decoded];
  try (apply (wrap_signed_range 32); lia);
  try (apply (wrap_signed_range 64); lia);
  try exact I;
  try (assert (Hr := be_uint_range bs); rewrite Hlen in Hr; exact Hr).

Lemma readArguments_loop_decoded (typetags : list byte) :
  forall (msg m : OscMessage) (reader reader' : Reader),
  Forall decoded (arguments msg) ->
  readArguments_loop typetags msg reader = (Ok m, reader') ->
  Forall decoded (arguments m) /\ Address m = Address msg.
Proof.
  induction typetags as [|c typetags IH]; intros msg m reader reader' Hmsg H.
  - unfold readArguments_loop, ret in H.
    assert (m = msg) by congruence. subst m. now split.
  - destruct c; cbn [readArguments_loop] in H;
      try (unfold raise in H; discriminate).
    + (* F *) read_number H IH.
    + (* T *) read_number H IH.
    + (* b *)
      apply bind_inv in H. destruct H as (buf & r1 & Hread & H).
      unfold readBlob, ret in Hread.
      assert (buf = []) by congruence. subst buf.
      apply IH in H; [exact H|].
      apply Forall_snoc; [assumption|reflexivity].
    + (* d *) read_number H IH.
    + (* f *) read_number H IH.
    + (* h *) read_number H IH.
    + (* i *) read_number H IH.
    + (* s *)
      apply bind_inv in H. destruct H as (s & r1 & Hread & H).
      apply readPaddedString_nul_free in Hread.
      apply IH in H; [exact H|].
      apply Forall_snoc; assumption.
    + (* t *)
      destruct (binary_Read 8 reader) as [[bs| |] r1] eqn:Hread;
        try discriminate.
      * apply binary_Read_Ok in Hread. destruct Hread as [Hlen _].
        apply IH in H; [exact H|].
        apply Forall_snoc; [assumption|].
        cbn [decoded]. exists (be_uint bs). split; [|reflexivity].
        assert (Hr := be_uint_range bs). rewrite Hlen in Hr. exact Hr.
      * assert (m = msg) by congruence. subst m. now split.
Qed.

(** X13. Whatever the input, a message that [readMessage] returns has an
    address without a zero byte and holds only what the decoder can make:
    booleans, numbers within the range of their type, strings without a
    zero byte, empty blobs and pointers to timetags. It holds no nil, no
    non-empty blob and no [OscTimetag] value. *)
Theorem readMessage_decoded (reader reader' : Reader) (msg : OscMessage) :
  readMessage reader = (Ok msg, reader') ->
  nul_free (Address msg) /\ Forall decoded (arguments msg).
Proof.
  unfold readMessage. intros H.
  apply bind_inv in H. destruct H as (address & r1 & Haddr & H).
  apply readPaddedString_nul_free in Haddr.
  unfold readArguments in H.
  apply bind_inv in H. destruct H as (typetags & r2 & _ & H).
  destruct (bytes_of typetags) as [|c0 tags]; [discriminate|].
  destruct (negb (Byte.eqb c0 ","%byte)); [discriminate|].
  apply readArguments_loop_decoded in H; [|constructor].
  destruct H as [Hargs Heq]. split; [|assumption].
  now rewrite Heq.
Qed.

Lemma readMessage_decoded_witness :
  nul_free (Address {| Address := "/a"; arguments := [ArgBlob []] |}) /\
  Forall decoded (arguments {| Address := "/a"; arguments := [ArgBlob []] |}).
Proof.
  apply (readMessage_decoded
           (bytes_of "/a" ++ [x00; x00] ++ bytes_of ",b" ++ [x00; x00]
              ++ [x00; x00; x00; x03; x01; x02; x03; x00])
           [x00; x00; x00; x03; x01; x02; x03; x00]).
  reflexivity.
Defined.

(** ** Reading a bundle *)

Lemma readBundle_header_steps (tt8 rest : list byte) :
  List.length tt8 = 8%nat ->
  readBundle_header (bytes_of "#bundle" ++ [x00] ++ tt8 ++ rest)
  = (msgLen <- read_msgLen ;;
     if msgLen <? 1 then raise ErrNoBundleElement
     else
       buf <- Peek1 ;;
       ret (NewOscBundle (timetagToTime (to_uint64 (to_int64 (be_uint tt8)))),
            buf)) rest.
Proof.
  intros Hlen. unfold readBundle_header.
  change (bytes_of "#bundle" ++ [x00] ++ tt8 ++ rest)
    with (bytes_of "#bundle" ++ x00 :: padding "#bundle" ++ tt8 ++ rest).
  rewrite (bind_Ok _ _ _ _ _ (readPaddedString_padded "#bundle" _
             ltac:(vm_compute; intuition discriminate)
             ltac:(vm_compute; discriminate))).
  cbn [String.eqb Ascii.eqb Bool.eqb negb andb].
  rewrite (bind_Ok _ _ _ _ _
             (binary_Read_app 8 tt8 rest Hlen ltac:(discriminate))).
  reflexivity.
Qed.

Lemma read_msgLen_app (len : Z) (body : list byte) :
  - 2 ^ 31 <= len < 2 ^ 31 ->
  read_msgLen (be_bytes 4 len ++ body) = (Ok len, body).
Proof.
  intros Hlen. unfold read_msgLen.
  rewrite binary_Read_app by (apply length_be_bytes || discriminate).
  rewrite be_uint_be_bytes. change (8 * Z.of_nat 4) with 32.
  unfold to_int32. rewrite wrap_signed_mod by lia.
  fold to_int32. now rewrite to_int32_small.
Qed.

(** X14. The bundle without elements is encoded in sixteen bytes, the
    padded "#bundle" and the timetag, and [readBundle] rejects these bytes
    with "No bundle element found": an empty bundle does not come back. *)
Theorem readBundle_empty_bundle (t : GoTime.Time) :
  OscBundle_ToByteArray (NewOscBundle t)
  = Ok (bytes_of "#bundle" ++ [x00] ++ be_bytes 8 (timeToTimetag t)) /\
  List.length (bytes_of "#bundle" ++ [x00] ++ be_bytes 8 (timeToTimetag t))
  = 16%nat /\
  readBundle (bytes_of "#bundle" ++ [x00] ++ be_bytes 8 (timeToTimetag t))
  = Some (Err ErrNoBundleElement, []).
Proof.
  split; [reflexivity|]. split; [reflexivity|].
  unfold readBundle. cbn [readBundle_fuel].
  rewrite <- (app_nil_r (be_bytes 8 (timeToTimetag t))).
  rewrite readBundle_header_steps by apply length_be_bytes.
  reflexivity.
Qed.

(** X15. [readBundle] makes no use of the length written before the
    element, beyond requiring it to be at least 1: two inputs that differ
    in that length only give the same result, whatever the true length of
    what follows. *)
Theorem readBundle_ignores_length (tt8 body : list byte) (len1 len2 : Z) :
  List.length tt8 = 8%nat ->
  1 <= len1 < 2 ^ 31 -> 1 <= len2 < 2 ^ 31 ->
  readBundle (bytes_of "#bundle" ++ [x00] ++ tt8 ++ be_bytes 4 len1 ++ body)
  = readBundle (bytes_of "#bundle" ++ [x00] ++ tt8 ++ be_bytes 4 len2 ++ body).
Proof.
  intros Htt H1 H2. unfold readBundle.
  replace (List.length
             (bytes_of "#bundle" ++ [x00] ++ tt8 ++ be_bytes 4 len1 ++ body))
    with (List.length
            (bytes_of "#bundle" ++ [x00] ++ tt8 ++ be_bytes 4 len2 ++ body))
    by (rewrite !length_app, !length_be_bytes; reflexivity).
  cbn [readBundle_fuel].
  rewrite !readBundle_header_steps by assumption.
  rewrite (bind_Ok _ _ _ _ _ (read_msgLen_app len1 body ltac:(lia))).
  rewrite (bind_Ok _ _ _ _ _ (read_msgLen_app len2 body ltac:(lia))).
  replace (len1 <? 1) with false by (symmetry; apply Z.ltb_ge; lia).
  replace (len2 <? 1) with false by (symmetry; apply Z.ltb_ge; lia).
  reflexivity.
Qed.

Lemma readBundle_ignores_length_witness :
  readBundle (bytes_of "#bundle" ++ [x00]
                ++ [x00; x00; x00; x00; x00; x00; x00; x01]
                ++ be_bytes 4 8 ++ bytes_of "/a" ++ [x00; x00; ","%byte; x00; x00; x00])
  = readBundle (bytes_of "#bundle" ++ [x00]
                  ++ [x00; x00; x00; x00; x00; x00; x00; x01]
                  ++ be_bytes 4 1000 ++ bytes_of "/a" ++ [x00; x00; ","%byte; x00; x00; x00]).
Proof.
  apply (readBundle_ignores_length
           [x00; x00; x00; x00; x00; x00; x00; x01]
           (bytes_of "/a" ++ [x00; x00; ","%byte; x00; x00; x00]) 8 1000).
  - reflexivity.
  - lia.
  - lia.
Defined.

(** X16. A first string other than "#bundle" makes [readBundle] fail with
    "Invalid bundle start tag", naming the string read; the input after
    the string is left unread. *)
Theorem readBundle_invalid_start_tag (s : string) (rest : list byte) :
  nul_free s -> fits s -> s <> "#bundle"%string ->
  readBundle (bytes_of s ++ x00 :: padding s ++ rest)
  = Some (Err (ErrInvalidBundleStartTag s), rest).
Proof.
  intros Hnul Hfits Hne. unfold readBundle. cbn [readBundle_fuel].
  unfold readBundle_header.
  rewrite (bind_Ok _ _ _ _ _ (readPaddedString_padded s rest Hnul Hfits)).
  apply String.eqb_neq in Hne. rewrite Hne. reflexivity.
Qed.

Lemma readBundle_invalid_start_tag_witness :
  readBundle (bytes_of "#bundel" ++ x00 :: padding "#bundel" ++ [x01])
  = Some (Err (ErrInvalidBundleStartTag "#bundel"), [x01]).
Proof.
  apply (readBundle_invalid_start_tag "#bundel" [x01]).
  - vm_compute. intuition discriminate.
  - vm_compute. discriminate.
  - discriminate.
Defined.

Lemma readBundle_header_bundle (reader reader' : Reader)
      (bundle : OscBundle) (buf0 : byte) :
  readBundle_header reader = (Ok (bundle, buf0), reader') ->
  exists t : GoTime.Time, bundle = NewOscBundle t.
Proof.
  unfold readBundle_header, bind. intros H.
  destruct (readPaddedString reader) as [[startTag| |] r1]; try discriminate.
  destruct (negb _); [discriminate|].
  destruct (binary_Read 8 r1) as [[bs| |] r2]; try discriminate.
  destruct (read_msgLen r2) as [[msgLen| |] r3]; try discriminate.
  destruct (msgLen <? 1); [discriminate|].
  destruct (Peek1 r3) as [[b| |] r4]; try discriminate.
  unfold ret in H.
  exists (timetagToTime (to_uint64 (to_int64 (be_uint bs)))). congruence.
Qed.

Lemma readBundle_fuel_single_chain (fuel : nat) :
  forall (reader reader' : Reader) (b : OscBundle),
  readBundle_fuel fuel reader = Some (Ok b, reader') -> single_chain b.
Proof.
  induction fuel as [|fuel IH]; intros reader reader' b H; [discriminate|].
  cbn [readBundle_fuel] in H.
  destruct (readBundle_header reader) as [[[bundle buf0]| |] r1] eqn:E;
    try discriminate.
  apply readBundle_header_bundle in E. destruct E as [t ->].
  destruct (Byte.eqb buf0 "/"%byte).
  - unfold bind in H.
    destruct (readMessage r1) as [[msg| |] r2]; try discriminate.
    unfold ret in H. assert (Hb : OscBundle_Append (NewOscBundle t)
                                    (PacketMessage msg) = b) by congruence.
    subst b. cbn. split; [lia|exact I].
  - destruct (Byte.eqb buf0 "#"%byte).
    + destruct (readBundle_fuel fuel r1) as [[[b0| |] r2]|] eqn:E;
        try discriminate.
      apply IH in E.
      assert (Hb : OscBundle_Append (NewOscBundle t) (PacketBundle b0) = b)
        by congruence.
      subst b. cbn. split; [lia|]. split; [exact E|exact I].
    + assert (Hb : NewOscBundle t = b) by congruence.
      subst b. cbn. split; [lia|exact I].
Qed.

(** X17. Whatever the input, a bundle that [readBundle] returns holds at
    most one element, and so does every bundle nested in it: the elements
    after the first are never read. *)
Theorem readBundle_single_chain (reader reader' : Reader) (b : OscBundle) :
  readBundle reader = Some (Ok b, reader') ->
  single_chain b /\ (List.length (Messages b) + List.length (Bundles b) <= 1)%nat.
Proof.
  intros H. apply readBundle_fuel_single_chain in H.
  split; [exact H|]. destruct b as [t ms bs]. exact (proj1 H).
Qed.

Lemma readBundle_single_chain_witness :
  single_chain (OscBundle_Append (NewOscBundle (GoTime.mkTime 0 1))
                                 (PacketMessage (NewOscMessage "/a"))) /\
  (List.length (Messages (OscBundle_Append (NewOscBundle (GoTime.mkTime 0 1))
                                           (PacketMessage (NewOscMessage "/a"))))
   + List.length (Bundles (OscBundle_Append (NewOscBundle (GoTime.mkTime 0 1))
                                            (PacketMessage (NewOscMessage "/a"))))
   <= 1)%nat.
Proof.
  apply (readBundle_single_chain
           (bytes_of "#bundle" ++ [x00]
              ++ be_bytes 8 (timeToTimetag (GoTime.mkTime 0 1))
              ++ be_bytes 4 8 ++ bytes_of "/a" ++ [x00; x00; ","%byte; x00; x00; x00]
              ++ be_bytes 4 8 ++ bytes_of "/b" ++ [x00; x00; ","%byte; x00; x00; x00])
           (be_bytes 4 8 ++ bytes_of "/b" ++ [x00; x00; ","%byte; x00; x00; x00])).
  vm_compute. reflexivity.
Defined.

(** The calls of [readBundle] on nested bundles come to an end on
    every input: one more unit of fuel than there are bytes gives a
    result, and any larger amount gives the same one. *)
Theorem readBundle_fuel_independent (fuel : nat) (reader : Reader) :
  (List.length reader < fuel)%nat ->
  readBundle reader <> None /\ readBundle_fuel fuel reader = readBundle reader.
Proof.
  intros Hlen. destruct (readBundle_returns reader) as [res Hres].
  split; [congruence|].
  rewrite Hres. apply (readBundle_fuel_more (S (List.length reader))).
  - lia.
  - exact Hres.
Qed.

Lemma readBundle_fuel_independent_witness :
  readBundle (bytes_of "#bundle" ++ [x00]) <> None /\
  readBundle_fuel 100 (bytes_of "#bundle" ++ [x00])
  = readBundle (bytes_of "#bundle" ++ [x00]).
Proof.
  apply (readBundle_fuel_independent 100 (bytes_of "#bundle" ++ [x00])).
  simpl. lia.
Defined.

(** ** Reading a datagram *)

(** [readFromConnection] looks at the first 1024 bytes of a datagram
    and at nothing after them. *)
Theorem readFromConnection_truncates (now : GoTime.Time) (datagram : list byte) :
  readFromConnection now (Ok datagram)
  = readFromConnection now (Ok (firstn 1024 datagram)).
Proof.
  unfold readFromConnection. now rewrite firstn_firstn.
Qed.

(** Messages of numbers and strings are read back whatever follows them. *)
Lemma readMessage_ToByteArray_then (msg : OscMessage) :
  nul_free (Address msg) -> fits (Address msg) ->
  Z.of_nat (List.length (arguments msg)) + 5 <= maxInt ->
  Forall number_or_string (arguments msg) ->
  exists tail : list byte,
    OscMessage_ToByteArray msg = Ok (bytes_of (Address msg) ++ tail) /\
    forall rest : Reader,
      readMessage ((bytes_of (Address msg) ++ tail) ++ rest) = (Ok msg, rest).
Proof.
  intros Hnul Hfits Hcount Hargs.
  destruct (encode_decode_arguments (arguments msg) Hargs [","%byte] [])
    as (tags & bytes & Henc & Hlen & Htags & Hdec).
  set (typetags := string_of_list_byte ([","%byte] ++ tags)).
  assert (Hbytes : bytes_of typetags = ","%byte :: tags)
    by (unfold typetags, bytes_of; now rewrite list_byte_of_string_of_list_byte).
  assert (Hnul' : nul_free typetags).
  { unfold nul_free. rewrite Hbytes. intros [Heq|Hin];
      [discriminate|contradiction]. }
  assert (Hfits' : fits typetags).
  { unfold fits, typetags. rewrite length_string_of_list_byte.
    simpl List.length. lia. }
  unfold OscMessage_ToByteArray. rewrite Henc. fold typetags.
  rewrite (writePaddedString_fst _ _ Hfits'), (writePaddedString_fst _ _ Hfits).
  exists (x00 :: padding (Address msg)
            ++ bytes_of typetags ++ x00 :: padding typetags ++ bytes).
  split.
  - cbn [app]. f_equal.
    repeat (rewrite <- app_assoc || rewrite <- app_comm_cons). reflexivity.
  - intros rest. unfold readMessage.
    repeat (rewrite <- app_assoc || rewrite <- app_comm_cons).
    rewrite (bind_Ok _ _ _ _ _ (readPaddedString_padded _ _ Hnul Hfits)).
    unfold readArguments.
    rewrite (bind_Ok _ _ _ _ _ (readPaddedString_padded _ _ Hnul' Hfits')).
    rewrite Hbytes, Byte_eqb_refl. cbn [negb].
    rewrite Hdec. destruct msg as [address arguments]. reflexivity.
Qed.

(** X18. From the server's side: a datagram of at most 1024 bytes that
    starts with the encoding of a message of numbers and strings, whose
    address starts with a slash, is read as a bundle that holds this
    message alone, with the time of the reading as its timetag. What
    follows the message in the datagram is ignored. *)
Theorem readFromConnection_message
        (now : GoTime.Time) (address : string) (args : list Argument)
        (bs trailing : list byte) :
  let msg := {| Address := String "/" address; arguments := args |} in
  nul_free (Address msg) -> fits (Address msg) ->
  Z.of_nat (List.length args) + 5 <= maxInt ->
  Forall number_or_string args ->
  OscMessage_ToByteArray msg = Ok bs ->
  (List.length bs <= 1024)%nat ->
  readFromConnection now (Ok (bs ++ trailing))
  = Some (Ok (Some (OscBundle_Append (NewOscBundle now) (PacketMessage msg)))).
Proof.
  intros msg Hnul Hfits Hcount Hargs Henc Hlen.
  destruct (readMessage_ToByteArray_then msg Hnul Hfits Hcount Hargs)
    as (tail & Henc' & Hdec).
  rewrite Henc in Henc'. apply Ok_inj in Henc'. subst bs.
  assert (Hpeek : forall after : Reader,
             Peek1 ((bytes_of (Address msg) ++ tail) ++ after)
             = (Ok "/"%byte, (bytes_of (Address msg) ++ tail) ++ after))
    by reflexivity.
  remember (bytes_of (Address msg) ++ tail) as bs eqn:Hbs.
  unfold readFromConnection. cbv zeta.
  rewrite firstn_app.
  rewrite (firstn_all2 (n := 1024) bs) by lia.
  rewrite <- app_assoc.
  rewrite Hpeek, Byte_eqb_refl, Hdec. reflexivity.
Qed.

Lemma readFromConnection_message_witness :
  readFromConnection (GoTime.mkTime 1000000000 0)
    (Ok ((bytes_of "/a" ++ [x00; x00; ","%byte; "i"%byte; x00; x00;
                            x00; x00; x00; x07]) ++ [xff; xff]))
  = Some (Ok (Some (OscBundle_Append
                      (NewOscBundle (GoTime.mkTime 1000000000 0))
                      (PacketMessage
                         {| Address := String "/" "a";
                            arguments := [ArgInt32 7] |})))).
Proof.
  apply (readFromConnection_message (GoTime.mkTime 1000000000 0) "a"
           [ArgInt32 7]
           (bytes_of "/a" ++ [x00; x00; ","%byte; "i"%byte; x00; x00;
                              x00; x00; x00; x07])
           [xff; xff]).
  - vm_compute. intuition discriminate.
  - vm_compute. discriminate.
  - vm_compute. discriminate.
  - constructor; [vm_compute; split; [discriminate|reflexivity]|constructor].
  - vm_compute. reflexivity.
  - simpl. lia.
Defined.

(** ** The first message of a bundle *)


Lemma write_messages_prefix (ms : list OscMessage) :
  forall data data' : list byte,
  write_messages ms data = Ok data' ->
  exists ext : list byte, data' = data ++ ext /\ (ms = [] -> ext = []).
Proof.
  induction ms as [|m ms IH]; intros data data' H.
  - apply Ok_inj in H. subst data'. exists []. now rewrite app_nil_r.
  - cbn [write_messages] in H.
    destruct (OscMessage_ToByteArray m) as [msgBuf|e|] eqn:E; try discriminate.
    destruct (IH _ _ H) as (ext & -> & _).
    exists (be_bytes 4 (to_int32 (Z.of_nat (List.length msgBuf))) ++ msgBuf ++ ext).
    rewrite <- !app_assoc. split; [reflexivity|discriminate].
Qed.

Lemma write_bundles_with_prefix (enc : OscBundle -> result (list byte))
      (bs : list OscBundle) :
  forall data data' : list byte,
  write_bundles_with enc bs data = Ok data' ->
  exists ext : list byte, data' = data ++ ext /\ (bs = [] -> ext = []).
Proof.
  induction bs as [|b bs IH]; intros data data' H.
  - apply Ok_inj in H. subst data'. exists []. now rewrite app_nil_r.
  - cbn [write_bundles_with] in H.
    destruct (enc b) as [bBuf|e|] eqn:E; try discriminate.
    destruct (IH _ _ H) as (ext & -> & _).
    exists (be_bytes 4 (to_int32 (Z.of_nat (List.length bBuf))) ++ bBuf ++ ext).
    rewrite <- !app_assoc. split; [reflexivity|discriminate].
Qed.

(** X30. From the bytes of a bundle whose first message is made of numbers
    and strings, with an address that starts with a slash, and whose
    timetag is a time between 1900 and 2036, [readBundle] gets the timetag
    back (osc.go:633-664) and then, with [readMessage], this first message
    (osc.go:667-676). The bytes of the other elements are left in the
    reader. What [readBundle] returns after that (osc.go:685) is not part
    of the statement. *)
Theorem readBundle_first_message
        (t : GoTime.Time) (address : string) (args : list Argument)
        (ms : list OscMessage) (bs : list OscBundle) (bytes : list byte) :
  let msg := {| Address := String "/" address; arguments := args |} in
  ntp_era t ->
  nul_free (Address msg) -> fits (Address msg) ->
  Z.of_nat (List.length args) + 5 <= maxInt ->
  Forall number_or_string args ->
  OscBundle_ToByteArray (mkOscBundle (NewOscTimetag t) (msg :: ms) bs)
  = Ok bytes ->
  Z.of_nat (List.length bytes) < 2 ^ 31 ->
  exists msgBuf more : list byte,
    OscMessage_ToByteArray msg = Ok msgBuf /\
    bytes = fst (writePaddedString "#bundle" [])
              ++ OscTimetag_ToByteArray (NewOscTimetag t)
              ++ be_bytes 4 (to_int32 (Z.of_nat (List.length msgBuf)))
              ++ msgBuf ++ more /\
    readBundle_header bytes = (Ok (NewOscBundle t, "/"%byte), msgBuf ++ more) /\
    readMessage (msgBuf ++ more) = (Ok msg, more) /\
    (ms = [] -> bs = [] -> more = []).
Proof.
  intros msg Hera Hnul Hfits Hcount Hargs Henc Hlen.
  destruct (readMessage_ToByteArray_then msg Hnul Hfits Hcount Hargs)
    as (tail & Hmsg & Hdec).
  rewrite OscBundle_ToByteArray_unfold in Henc.
  cbn [write_messages] in Henc. rewrite Hmsg in Henc.
  assert (Hhead : exists tl, bytes_of (Address msg) ++ tail = "/"%byte :: tl)
    by (eexists; reflexivity).
  destruct Hhead as (tl & Hhead).
  remember (bytes_of (Address msg) ++ tail) as msgBuf eqn:HmsgBuf.
  destruct (write_messages ms _) as [data|e|] eqn:Ems; try discriminate.
  destruct (write_messages_prefix ms _ _ Ems) as (ext1 & -> & Hext1).
  destruct (write_bundles_with_prefix _ bs _ _ Henc) as (ext2 & -> & Hext2).
  exists msgBuf, (ext1 ++ ext2).
  split; [exact Hmsg|]. split; [rewrite <- !app_assoc; reflexivity|].
  split; [|split].
  - rewrite <- !app_assoc. rewrite Hhead. cbn [app].
    apply readBundle_header_one; [assumption|].
    rewrite !length_app in Hlen. rewrite Hhead in Hlen.
    cbn [List.length] in *. lia.
  - apply Hdec.
  - intros Hms Hbs. now rewrite (Hext1 Hms), (Hext2 Hbs).
Qed.

Lemma readBundle_first_message_witness :
  exists msgBuf more : list byte,
    OscMessage_ToByteArray {| Address := String "/" "a"; arguments := [ArgInt32 7] |}
    = Ok msgBuf /\
    bytes_of "#bundle" ++ [x00] ++ be_bytes 8 13782501950230284799
      ++ [x00; x00; x00; x0c]
      ++ (bytes_of "/a" ++ [x00; x00] ++ bytes_of ",i" ++ [x00; x00]
            ++ [x00; x00; x00; x07])
      ++ [x00; x00; x00; x10] ++ bytes_of "#bundle" ++ [x00]
      ++ be_bytes 8 9487534653230284800
    = fst (writePaddedString "#bundle" [])
        ++ OscTimetag_ToByteArray
             (NewOscTimetag (GoTime.mkTime 1000000000 999999999))
        ++ be_bytes 4 (to_int32 (Z.of_nat (List.length msgBuf)))
        ++ msgBuf ++ more /\
    readBundle_header
      (bytes_of "#bundle" ++ [x00] ++ be_bytes 8 13782501950230284799
         ++ [x00; x00; x00; x0c]
         ++ (bytes_of "/a" ++ [x00; x00] ++ bytes_of ",i" ++ [x00; x00]
               ++ [x00; x00; x00; x07])
         ++ [x00; x00; x00; x10] ++ bytes_of "#bundle" ++ [x00]
         ++ be_bytes 8 9487534653230284800)
    = (Ok (NewOscBundle (GoTime.mkTime 1000000000 999999999), "/"%byte),
       msgBuf ++ more) /\
    readMessage (msgBuf ++ more)
    = (Ok {| Address := String "/" "a"; arguments := [ArgInt32 7] |}, more) /\
    (@nil OscMessage = [] -> [NewOscBundle (GoTime.mkTime 0 0)] = [] -> more = []).
Proof.
  apply (readBundle_first_message
           (GoTime.mkTime 1000000000 999999999) "a" [ArgInt32 7]
           [] [NewOscBundle (GoTime.mkTime 0 0)]).
  - vm_compute. intuition discriminate.
  - vm_compute. intuition discriminate.
  - vm_compute. discriminate.
  - vm_compute. discriminate.
  - constructor; [vm_compute; split; [discriminate|reflexivity]|constructor].
  - vm_compute. reflexivity.
  - vm_compute. reflexivity.
Defined.

(** ** Timetags and their accessors *)

(** X19. [FractionalSecond] returns 0 for every timetag: it shifts the
    fraction out of the 64 bits before it takes the low 32 bits. *)
Theorem FractionalSecond_zero (self : OscTimetag) : FractionalSecond self = 0.
Proof.
  unfold FractionalSecond, to_uint32, to_uint64, wrap_unsigned.
  rewrite Z.shiftl_mul_pow2 by lia.
  rewrite Z.mod_mod_divide by (exists (2 ^ 32); reflexivity).
  apply Z.mod_mul. lia.
Qed.

(** X20. [SecondsSinceEpoch] of the timetag of a time is the number of
    seconds from 1900 to that time, modulo 2^32. *)
Theorem SecondsSinceEpoch_NewOscTimetag (t : GoTime.Time) :
  GoTime.valid t ->
  SecondsSinceEpoch (NewOscTimetag t)
  = (secondsFrom1900To1970 + GoTime.Time_Unix t) mod 2 ^ 32.
Proof.
  intros Hv. unfold SecondsSinceEpoch, NewOscTimetag. cbn [timeTag].
  rewrite timeToTimetag_high by assumption.
  apply to_uint32_small. apply Z.mod_pos_bound. lia.
Qed.

Lemma SecondsSinceEpoch_NewOscTimetag_witness :
  SecondsSinceEpoch (NewOscTimetag (GoTime.mkTime 1000000000 500000000))
  = (secondsFrom1900To1970
     + GoTime.Time_Unix (GoTime.mkTime 1000000000 500000000)) mod 2 ^ 32.
Proof.
  apply (SecondsSinceEpoch_NewOscTimetag (GoTime.mkTime 1000000000 500000000)).
  vm_compute. intuition discriminate.
Defined.

(** [time.Unix] on seconds within [int64] and a count of nanoseconds
    below 2^32: a valid time, whose nanoseconds are the count modulo
    10^9. *)
Lemma GoTime_Unix_valid (sec nsec : Z) :
  0 <= nsec < 2 ^ 32 ->
  GoTime.valid (GoTime.Unix (to_int64 sec) nsec) /\
  GoTime.Time_Nanosecond (GoTime.Unix (to_int64 sec) nsec) = nsec mod 1000000000 /\
  (nsec < 1000000000 ->
   GoTime.Unix (to_int64 sec) nsec = GoTime.mkTime (to_int64 sec) nsec).
Proof.
  intros Hn. unfold GoTime.Unix, GoTime.valid.
  assert (Hs := wrap_signed_range 64 sec ltac:(lia)).
  change (64 - 1) with 63 in Hs. fold to_int64 in Hs.
  assert (Hdm := Z.div_mod nsec 1000000000 ltac:(lia)).
  assert (Hr := Z.mod_pos_bound nsec 1000000000 ltac:(lia)).
  replace (nsec <? 0) with false by (symmetry; apply Z.ltb_ge; lia).
  cbn [orb].
  destruct (1000000000 <=? nsec) eqn:E.
  - apply Z.leb_le in E.
    rewrite Z.quot_div_nonneg by lia.
    assert (Hq : 1 <= nsec / 1000000000 <= 4).
    { split.
      - apply Z.div_le_lower_bound; lia.
      - apply Z.lt_succ_r. apply Z.div_lt_upper_bound; lia. }
    rewrite (to_int64_small (nsec / 1000000000 * 1000000000)) by lia.
    rewrite (to_int64_small (nsec - nsec / 1000000000 * 1000000000)) by lia.
    replace (nsec - nsec / 1000000000 * 1000000000 <? 0) with false
      by (symmetry; apply Z.ltb_ge; lia).
    cbn [GoTime.Time_Unix GoTime.Time_Nanosecond].
    assert (Hs' := wrap_signed_range 64 (to_int64 sec + nsec / 1000000000)
                     ltac:(lia)).
    change (64 - 1) with 63 in Hs'. fold to_int64 in Hs'.
    repeat split; lia.
  - apply Z.leb_gt in E.
    cbn [GoTime.Time_Unix GoTime.Time_Nanosecond].
    rewrite Z.mod_small by lia.
    repeat split; lia.
Qed.

Lemma shiftr_land_parts (tt : Z) :
  0 <= tt < 2 ^ 64 ->
  0 <= Z.shiftr tt 32 < 2 ^ 32 /\
  Z.land tt 0xffffffff = tt mod 2 ^ 32 /\
  tt = Z.shiftr tt 32 * 2 ^ 32 + tt mod 2 ^ 32.
Proof.
  intros Htt. rewrite Z.shiftr_div_pow2 by lia.
  change 0xffffffff with (Z.ones 32). rewrite Z.land_ones by lia.
  assert (Hdm := Z.div_mod tt (2 ^ 32) ltac:(lia)).
  assert (Hr := Z.mod_pos_bound tt (2 ^ 32) ltac:(lia)).
  change (2 ^ 64) with (2 ^ 32 * 2 ^ 32) in Htt.
  assert (0 <= tt / 2 ^ 32) by (apply Z.div_pos; lia).
  assert (tt / 2 ^ 32 < 2 ^ 32) by (apply Z.div_lt_upper_bound; lia).
  repeat split; lia.
Qed.

(** X21. A timetag taken from the wire comes out of
    [NewOscTimetagFromTimetag] with the same 64 bits exactly when its low
    half, read as a number of nanoseconds, is below 10^9; a larger low
    half is carried into the seconds. *)
Theorem NewOscTimetagFromTimetag_keeps (tt : Z) :
  0 <= tt < 2 ^ 64 ->
  (TimeTag (NewOscTimetagFromTimetag tt) = tt <-> tt mod 2 ^ 32 < 1000000000).
Proof.
  intros Htt.
  destruct (shiftr_land_parts tt Htt) as (Hhi & Hlo & Hparts).
  assert (Hr := Z.mod_pos_bound tt (2 ^ 32) ltac:(lia)).
  unfold TimeTag, NewOscTimetagFromTimetag, NewOscTimetag. cbn [timeTag].
  unfold timetagToTime. rewrite Hlo.
  rewrite (to_int64_small (tt mod 2 ^ 32)) by lia.
  set (sec := to_uint64 (Z.shiftr tt 32 - secondsFrom1900To1970)).
  destruct (GoTime_Unix_valid sec (tt mod 2 ^ 32) Hr) as (Hv & Hns & Hsmall).
  split.
  - intros Heq.
    assert (Hlow := timeToTimetag_low _ Hv).
    rewrite Heq, Hlo, Hns in Hlow.
    assert (Hm := Z.mod_pos_bound (tt mod 2 ^ 32) 1000000000 ltac:(lia)).
    lia.
  - intros Hlt. rewrite (Hsmall Hlt).
    rewrite timeToTimetag_parts
      by (rewrite <- (Hsmall Hlt); exact Hv).
    cbn [GoTime.Time_Unix GoTime.Time_Nanosecond].
    rewrite Zplus_mod, to_int64_mod_2_32.
    unfold sec, to_uint64, wrap_unsigned.
    rewrite Z.mod_mod_divide by (exists (2 ^ 32); reflexivity).
    rewrite <- Zplus_mod.
    replace (secondsFrom1900To1970 + (Z.shiftr tt 32 - secondsFrom1900To1970))
      with (Z.shiftr tt 32) by lia.
    rewrite Z.mod_small by lia. lia.
Qed.

Lemma NewOscTimetagFromTimetag_keeps_witness :
  TimeTag (NewOscTimetagFromTimetag timeTagImmediate) = timeTagImmediate
  <-> timeTagImmediate mod 2 ^ 32 < 1000000000.
Proof.
  apply (NewOscTimetagFromTimetag_keeps timeTagImmediate).
  vm_compute. intuition discriminate.
Defined.

(** X22. Between 1900 and 2036 the timetags of two times are ordered as
    the times are: by the seconds, then by the nanoseconds. *)
Theorem timeToTimetag_monotone (t1 t2 : GoTime.Time) :
  ntp_era t1 -> ntp_era t2 ->
  (timeToTimetag t1 < timeToTimetag t2
   <-> GoTime.Time_Unix t1 < GoTime.Time_Unix t2 \/
       (GoTime.Time_Unix t1 = GoTime.Time_Unix t2 /\
        GoTime.Time_Nanosecond t1 < GoTime.Time_Nanosecond t2)).
Proof.
  intros H1 H2.
  rewrite !timeToTimetag_parts by now apply ntp_era_valid.
  destruct H1 as [Hs1 Hn1], H2 as [Hs2 Hn2].
  rewrite !Z.mod_small by assumption.
  change (2 ^ 32) with 4294967296. lia.
Qed.

Lemma timeToTimetag_monotone_witness :
  timeToTimetag (GoTime.mkTime 1000000000 999999999)
  < timeToTimetag (GoTime.mkTime 1000000001 0)
  <-> GoTime.Time_Unix (GoTime.mkTime 1000000000 999999999)
      < GoTime.Time_Unix (GoTime.mkTime 1000000001 0) \/
      (GoTime.Time_Unix (GoTime.mkTime 1000000000 999999999)
       = GoTime.Time_Unix (GoTime.mkTime 1000000001 0) /\
       GoTime.Time_Nanosecond (GoTime.mkTime 1000000000 999999999)
       < GoTime.Time_Nanosecond (GoTime.mkTime 1000000001 0)).
Proof.
  apply (timeToTimetag_monotone (GoTime.mkTime 1000000000 999999999)
                                (GoTime.mkTime 1000000001 0)).
  - vm_compute. intuition discriminate.
  - vm_compute. intuition discriminate.
Defined.

(** ** Building a message *)

Lemma fold_Append (args : list Argument) (msg : OscMessage) :
  fold_left do_call (map CallAppend args) msg
  = {| Address := Address msg;
       arguments := arguments msg ++ filter (fun a => negb (is_nil a)) args |}.
Proof.
  revert msg. induction args as [|arg args IH]; intros [address arguments].
  - cbn. now rewrite app_nil_r.
  - cbn [map fold_left]. rewrite IH.
    destruct arg; cbn; rewrite <- ?app_assoc; reflexivity.
Qed.

(** X23. A message keeps the arguments appended to it in the order of the
    calls, without the nil ones, which are dropped; [ClearData] empties it
    and keeps the address, so that a message holds what was appended
    since the last [ClearData]. *)
Theorem build_arguments (address : string) (before : list message_call)
        (args : list Argument) :
  arguments (build address (map CallAppend args))
  = filter (fun a => negb (is_nil a)) args /\
  CountArguments (build address (map CallAppend args))
  = Z.of_nat (List.length (filter (fun a => negb (is_nil a)) args)) /\
  arguments (build address (before ++ CallClearData :: map CallAppend args))
  = filter (fun a => negb (is_nil a)) args.
Proof.
  unfold build, CountArguments.
  rewrite fold_Append. cbn [arguments app].
  repeat split.
  rewrite fold_left_app. cbn [fold_left do_call].
  rewrite fold_Append. unfold ClearData. cbn [arguments Address].
  now rewrite skipn_all.
Qed.

(** ** Blobs *)

(** X24. For every blob of N bytes, [writeBlob] appends the length as 32
    bits, the data and 4 - N mod 4 zero bytes: at least one, and four when
    N is a multiple of four. The number it returns is the number of bytes
    appended, which is a multiple of four, and the first four bytes read
    back as N. *)
Theorem writeBlob_padded (data buff : list byte) :
  Z.of_nat (List.length data) < 2 ^ 31 ->
  let N := Z.of_nat (List.length data) in
  writeBlob data buff
    = (buff ++ be_bytes 4 N ++ data ++ repeat x00 (Z.to_nat (4 - N mod 4)),
       4 + N + (4 - N mod 4)) /\
  1 <= 4 - N mod 4 <= 4 /\
  (4 + N + (4 - N mod 4)) mod 4 = 0 /\
  be_uint (be_bytes 4 N) = N.
Proof.
  intros Hlen N.
  assert (HN : 0 <= N) by (unfold N; lia).
  assert (Hr := Z.mod_pos_bound N 4 ltac:(lia)).
  assert (Hdm := Z.div_mod N 4 ltac:(lia)).
  split; [|split; [|split]].
  - rewrite writeBlob_layout by (unfold maxInt; fold N; lia).
    fold N. now rewrite to_int32_small by lia.
  - lia.
  - replace (4 + N + (4 - N mod 4)) with ((N / 4 + 2) * 4) by lia.
    apply Z.mod_mul. lia.
  - apply uint_wire. change (8 * Z.of_nat 4) with 32. lia.
Qed.

Lemma writeBlob_padded_witness :
  writeBlob [x01; x02; x03; x04; x05] [xff]
    = ([xff] ++ be_bytes 4 (Z.of_nat (List.length [x01; x02; x03; x04; x05]))
         ++ [x01; x02; x03; x04; x05]
         ++ repeat x00
              (Z.to_nat
                 (4 - Z.of_nat (List.length [x01; x02; x03; x04; x05]) mod 4)),
       4 + Z.of_nat (List.length [x01; x02; x03; x04; x05])
       + (4 - Z.of_nat (List.length [x01; x02; x03; x04; x05]) mod 4)) /\
  1 <= 4 - Z.of_nat (List.length [x01; x02; x03; x04; x05]) mod 4 <= 4 /\
  (4 + Z.of_nat (List.length [x01; x02; x03; x04; x05])
   + (4 - Z.of_nat (List.length [x01; x02; x03; x04; x05]) mod 4)) mod 4 = 0 /\
  be_uint (be_bytes 4 (Z.of_nat (List.length [x01; x02; x03; x04; x05])))
  = Z.of_nat (List.length [x01; x02; x03; x04; x05]).
Proof.
  apply (writeBlob_padded [x01; x02; x03; x04; x05] [xff]).
  vm_compute. reflexivity.
Defined.

(** ** The client *)

Lemma first_error_unsupported (ms : list OscMessage) (e : error) :
  first_error ms = Some e -> exists name : string, e = ErrUnsupportedType name.
Proof.
  induction ms as [|m ms IH]; cbn [first_error]; [discriminate|].
  unfold msg_error.
  destruct (find unsupported (arguments m)) as [arg|]; [|exact IH].
  intros H. exists (type_name arg). congruence.
Qed.

(** An error of the encoder says that the type of an argument is not
    supported. *)
Lemma ToByteArray_error (packet : OscPacket) (e : error) :
  ToByteArray packet = Err e -> exists name : string, e = ErrUnsupportedType name.
Proof.
  destruct packet as [m|b]; cbn [ToByteArray]; intros H.
  - apply (first_error_unsupported [m]). cbn [first_error].
    assert (Hm := OscMessage_ToByteArray_msg_error m).
    destruct (msg_error m) as [e'|].
    + congruence.
    + destruct Hm as (bs & Hbs). congruence.
  - apply (first_error_unsupported (bundle_messages b)).
    assert (Hb := OscBundle_ToByteArray_first_error b).
    destruct (first_error (bundle_messages b)) as [e'|].
    + congruence.
    + destruct Hb as (bs & Hbs). congruence.
Qed.

(** C9. Every failure on the way of [Send] comes back to the caller as an
    error. When the address of the client does not resolve,
    [net.ResolveUDPAddr] returns a nil address, [net.DialUDP] refuses it,
    and [Send] returns the error of the dial, an error of package [net].
    An error of the dial, of the encoder (an unsupported type) and of the
    write are each returned as they are; in the last two cases after the
    connection is closed. *)
Theorem Send_returns_errors
        (UDPAddr UDPConn : Type)
        (ResolveUDPAddr : string -> option UDPAddr * option error)
        (DialUDP : option UDPAddr -> result UDPConn)
        (conn_Write : UDPConn -> list byte -> result Z)
        (client : OscClient) (packet : OscPacket) :
  (net_package ResolveUDPAddr DialUDP ->
   forall e : error,
     snd (ResolveUDPAddr (host_port (ipaddress client) (port client))) = Some e ->
     Send ResolveUDPAddr DialUDP conn_Write client packet
     = (Err (ErrNet "dial udp: missing address"), [])) /\
  (forall e : error,
     DialUDP (fst (ResolveUDPAddr (host_port (ipaddress client) (port client))))
     = Err e ->
     Send ResolveUDPAddr DialUDP conn_Write client packet = (Err e, [])) /\
  (forall (conn : UDPConn) (e : error),
     DialUDP (fst (ResolveUDPAddr (host_port (ipaddress client) (port client))))
     = Ok conn ->
     ToByteArray packet = Err e ->
     Send ResolveUDPAddr DialUDP conn_Write client packet
     = (Err e, [CallClose conn]) /\
     exists name : string, e = ErrUnsupportedType name) /\
  (forall (conn : UDPConn) (data : list byte) (e : error),
     DialUDP (fst (ResolveUDPAddr (host_port (ipaddress client) (port client))))
     = Ok conn ->
     ToByteArray packet = Ok data ->
     conn_Write conn data = Err e ->
     Send ResolveUDPAddr DialUDP conn_Write client packet
     = (Err e, [CallWrite conn data; CallClose conn])).
Proof.
  split; [|split; [|split]].
  - intros [Hnil Hdial] e He.
    apply Send_dial_error. now rewrite (Hnil _ _ He).
  - intros e. apply Send_dial_error.
  - intros conn e Hd He. split.
    + now apply Send_encode_error.
    + exact (ToByteArray_error packet e He).
  - intros conn data e. apply Send_write_error.
Qed.

Lemma Send_returns_errors_witness :
  Send unresolved_ResolveUDPAddr net_DialUDP net_Write
       (NewOscClient "no.such.host" 9000) (PacketMessage (NewOscMessage "/a"))
  = (Err (ErrNet "dial udp: missing address"), []) /\
  (Send resolved_ResolveUDPAddr net_DialUDP net_Write
        (NewOscClient "localhost" 9000)
        (PacketMessage {| Address := "/a"; arguments := [ArgOther "int"] |})
   = (Err (ErrUnsupportedType "int"), [CallClose tt]) /\
   exists name : string, ErrUnsupportedType "int" = ErrUnsupportedType name) /\
  Send resolved_ResolveUDPAddr net_DialUDP refused_Write
       (NewOscClient "localhost" 9000) (PacketMessage (NewOscMessage "/a"))
  = (Err (ErrNet "write udp: connection refused"),
     [CallWrite tt (bytes_of "/a" ++ [x00; x00; ","%byte; x00; x00; x00]);
      CallClose tt]).
Proof.
  split; [|split].
  - apply (proj1 (Send_returns_errors unit unit unresolved_ResolveUDPAddr
                    net_DialUDP net_Write (NewOscClient "no.such.host" 9000)
                    (PacketMessage (NewOscMessage "/a"))))
      with (e := ErrNet "lookup no.such.host:9000: no such host").
    + split; [intros s e _|]; reflexivity.
    + reflexivity.
  - apply (proj1 (proj2 (proj2 (Send_returns_errors unit unit
                    resolved_ResolveUDPAddr net_DialUDP net_Write
                    (NewOscClient "localhost" 9000)
                    (PacketMessage {| Address := "/a";
                                      arguments := [ArgOther "int"] |}))))).
    + reflexivity.
    + reflexivity.
  - apply (proj2 (proj2 (proj2 (Send_returns_errors unit unit
                    resolved_ResolveUDPAddr net_DialUDP refused_Write
                    (NewOscClient "localhost" 9000)
                    (PacketMessage (NewOscMessage "/a")))))).
    + reflexivity.
    + reflexivity.
    + reflexivity.
Defined.

(** X25. When [Send] returns nil, it has dialled a connection, written on
    it the bytes of the packet, once and whole, and closed it; it made no
    other call on the connection. *)
Theorem Send_Ok
        (UDPAddr UDPConn : Type)
        (ResolveUDPAddr : string -> option UDPAddr * option error)
        (DialUDP : option UDPAddr -> result UDPConn)
        (conn_Write : UDPConn -> list byte -> result Z)
        (client : OscClient) (packet : OscPacket)
        (calls : list (conn_call UDPConn)) :
  Send ResolveUDPAddr DialUDP conn_Write client packet = (Ok tt, calls) ->
  exists (conn : UDPConn) (data : list byte),
    DialUDP (fst (ResolveUDPAddr (host_port (ipaddress client) (port client))))
    = Ok conn /\
    ToByteArray packet = Ok data /\
    calls = [CallWrite conn data; CallClose conn].
Proof.
  unfold Send. destruct (ResolveUDPAddr _) as [addr err]. cbn [fst].
  destruct (DialUDP addr) as [conn|e|]; try discriminate.
  destruct (ToByteArray packet) as [data|e|]; try discriminate.
  destruct (conn_Write conn data) as [n|e|] eqn:Ew; try discriminate.
  intros H. exists conn, data. repeat split. congruence.
Qed.

Lemma Send_Ok_witness :
  exists (conn : unit) (data : list byte),
    net_DialUDP (fst (resolved_ResolveUDPAddr
                        (host_port (ipaddress (NewOscClient "localhost" 9000))
                                   (port (NewOscClient "localhost" 9000)))))
    = Ok conn /\
    ToByteArray (PacketMessage (NewOscMessage "/a")) = Ok data /\
    [CallWrite tt (bytes_of "/a" ++ [x00; x00; ","%byte; x00; x00; x00]);
     CallClose tt]
    = [CallWrite conn data; CallClose conn].
Proof.
  apply (Send_Ok unit unit resolved_ResolveUDPAddr net_DialUDP net_Write
                 (NewOscClient "localhost" 9000)
                 (PacketMessage (NewOscMessage "/a"))).
  reflexivity.
Defined.

(** X26. Once the dial has succeeded, every return of [Send] comes after
    the connection was closed, and [Send] wrote on it at most once: the
    connection is released on the paths of the encode error and of the
    write error as on the path of success. *)
Theorem Send_closes
        (UDPAddr UDPConn : Type)
        (ResolveUDPAddr : string -> option UDPAddr * option error)
        (DialUDP : option UDPAddr -> result UDPConn)
        (conn_Write : UDPConn -> list byte -> result Z)
        (client : OscClient) (packet : OscPacket) (conn : UDPConn) :
  DialUDP (fst (ResolveUDPAddr (host_port (ipaddress client) (port client))))
  = Ok conn ->
  fst (Send ResolveUDPAddr DialUDP conn_Write client packet) <> Panic ->
  snd (Send ResolveUDPAddr DialUDP conn_Write client packet) = [CallClose conn] \/
  exists data : list byte,
    ToByteArray packet = Ok data /\
    snd (Send ResolveUDPAddr DialUDP conn_Write client packet)
    = [CallWrite conn data; CallClose conn].
Proof.
  unfold Send. destruct (ResolveUDPAddr _) as [addr err]. cbn [fst].
  intros ->.
  destruct (ToByteArray packet) as [data|e|]; cbn [fst snd].
  - destruct (conn_Write conn data) as [n|e|]; cbn [fst snd]; intros Hp.
    + right. now exists data.
    + right. now exists data.
    + contradiction.
  - intros _. now left.
  - intros Hp. contradiction.
Qed.

Lemma Send_closes_witness :
  snd (Send resolved_ResolveUDPAddr net_DialUDP net_Write
            (NewOscClient "localhost" 9000)
            (PacketMessage {| Address := "/a"; arguments := [ArgOther "int"] |}))
  = [CallClose tt] \/
  exists data : list byte,
    ToByteArray (PacketMessage {| Address := "/a"; arguments := [ArgOther "int"] |})
    = Ok data /\
    snd (Send resolved_ResolveUDPAddr net_DialUDP net_Write
              (NewOscClient "localhost" 9000)
              (PacketMessage {| Address := "/a"; arguments := [ArgOther "int"] |}))
    = [CallWrite tt data; CallClose tt].
Proof.
  apply (Send_closes unit unit resolved_ResolveUDPAddr net_DialUDP net_Write
                     (NewOscClient "localhost" 9000)
                     (PacketMessage {| Address := "/a";
                                       arguments := [ArgOther "int"] |}) tt).
  - reflexivity.
  - discriminate.
Defined.

(** ** Comparing messages *)

Lemma interface_neq_plain (neq : Argument -> Argument -> result bool)
      (b a : Argument) :
  plain a -> plain b ->
  (interface_neq neq b a = Ok false /\ a = b) \/
  (interface_neq neq b a = Ok true /\ a <> b).
Proof.
  intros Ha Hb.
  destruct a as [x| |x|x|x|x|x|x|x|x|x]; try contradiction;
    destruct b as [y| |y|y|y|y|y|y|y|y|y]; try contradiction;
    cbn [interface_neq];
    try (right; split; [reflexivity|discriminate]);
    try (left; split; reflexivity).
  - destruct x, y; cbn;
      (left; split; reflexivity) || (right; split; [reflexivity|discriminate]).
  - destruct (Z.eqb_spec y x) as [->|Hne]; cbn [negb].
    + left. split; reflexivity.
    + right. split; [reflexivity|]. intros H. apply Hne. congruence.
  - destruct (String.eqb_spec y x) as [->|Hne]; cbn [negb].
    + left. split; reflexivity.
    + right. split; [reflexivity|]. intros H. apply Hne. congruence.
  - destruct (Z.eqb_spec y x) as [->|Hne]; cbn [negb].
    + left. split; reflexivity.
    + right. split; [reflexivity|]. intros H. apply Hne. congruence.
Qed.

Lemma Equals_loop_plain (neq : Argument -> Argument -> result bool)
      (args : list Argument) :
  forall b_args : list Argument,
  List.length args = List.length b_args ->
  Forall plain args -> Forall plain b_args ->
  (Equals_loop neq args b_args = Ok true /\ args = b_args) \/
  (Equals_loop neq args b_args = Ok false /\ args <> b_args).
Proof.
  induction args as [|a args IH]; intros [|b b_args] Hlen Ha Hb;
    try discriminate.
  - left. split; reflexivity.
  - cbn [Equals_loop].
    inversion Ha as [|? ? Ha1 Ha2]; subst.
    inversion Hb as [|? ? Hb1 Hb2]; subst.
    destruct (interface_neq_plain neq b a Ha1 Hb1) as [[-> ->]|[-> Hne]].
    + destruct (IH b_args ltac:(simpl in Hlen; lia) Ha2 Hb2)
        as [[-> ->]|[-> Hne]].
      * left. split; reflexivity.
      * right. split; [reflexivity|]. intros H. apply Hne. congruence.
    + right. split; [reflexivity|]. intros H. apply Hne. congruence.
Qed.

(** X27. On two messages whose arguments are booleans, nils, integers and
    strings, [Equals] does not panic and returns true exactly when the two
    messages have the same address and the same arguments in the same
    order. *)
Theorem Equals_plain (neq : Argument -> Argument -> result bool)
        (msg b : OscMessage) :
  Forall plain (arguments msg) -> Forall plain (arguments b) ->
  (Equals neq msg b = Ok true /\ msg = b) \/
  (Equals neq msg b = Ok false /\ msg <> b).
Proof.
  intros Hm Hb. unfold Equals, CountArguments.
  destruct (String.eqb_spec (Address msg) (Address b)) as [Haddr|Haddr];
    cbn [negb].
  2:{ right. split; [reflexivity|]. intros H. apply Haddr. congruence. }
  destruct (Z.eqb_spec (Z.of_nat (List.length (arguments msg)))
                       (Z.of_nat (List.length (arguments b)))) as [Hlen|Hlen];
    cbn [negb].
  2:{ right. split; [reflexivity|]. intros H. apply Hlen. congruence. }
  destruct (Equals_loop_plain neq (arguments msg) (arguments b)
              ltac:(lia) Hm Hb) as [[-> Hargs]|[-> Hargs]].
  - left. split; [reflexivity|].
    destruct msg, b. cbn in *. congruence.
  - right. split; [reflexivity|]. intros H. apply Hargs. congruence.
Qed.

Lemma Equals_plain_witness :
  (Equals (fun _ _ => Panic)
          (build "/a" [CallAppend (ArgInt32 1); CallAppend (ArgString "x")])
          (build "/a" [CallAppend (ArgInt32 1); CallAppend (ArgString "y")])
   = Ok true /\
   build "/a" [CallAppend (ArgInt32 1); CallAppend (ArgString "x")]
   = build "/a" [CallAppend (ArgInt32 1); CallAppend (ArgString "y")]) \/
  (Equals (fun _ _ => Panic)
          (build "/a" [CallAppend (ArgInt32 1); CallAppend (ArgString "x")])
          (build "/a" [CallAppend (ArgInt32 1); CallAppend (ArgString "y")])
   = Ok false /\
   build "/a" [CallAppend (ArgInt32 1); CallAppend (ArgString "x")]
   <> build "/a" [CallAppend (ArgInt32 1); CallAppend (ArgString "y")]).
Proof.
  apply (Equals_plain (fun _ _ => Panic)
           (build "/a" [CallAppend (ArgInt32 1); CallAppend (ArgString "x")])
           (build "/a" [CallAppend (ArgInt32 1); CallAppend (ArgString "y")])).
  - repeat constructor.
  - repeat constructor.
Defined.

Lemma Equals_loop_prefix (neq : Argument -> Argument -> result bool)
      (pre : list Argument) (l1 l2 : list Argument) :
  Forall plain pre ->
  Equals_loop neq (pre ++ l1) (pre ++ l2) = Equals_loop neq l1 l2.
Proof.
  induction 1 as [|a pre Ha Hpre IH]; [reflexivity|].
  cbn [app Equals_loop].
  destruct (interface_neq_plain neq a a Ha Ha) as [[-> _]|[_ Hne]].
  - exact IH.
  - now contradiction Hne.
Qed.

(** X28. [Equals] is not reflexive. A message that holds a blob, after
    booleans, nils, integers and strings only, makes [Equals] panic when it
    is compared with a message of the same address and as many arguments
    that holds a blob at the same place, itself included; and a message
    that holds a [float32] NaN at that place is not equal to itself. *)
Theorem Equals_blob_and_NaN (neq : Argument -> Argument -> result bool)
        (address : string) (pre post post' : list Argument)
        (data data' : list byte) (bits : Z) :
  Forall plain pre ->
  List.length post = List.length post' ->
  float_is_nan 23 32 bits = true ->
  Equals neq {| Address := address; arguments := pre ++ ArgBlob data :: post |}
             {| Address := address; arguments := pre ++ ArgBlob data' :: post' |}
  = Panic /\
  Equals neq {| Address := address; arguments := pre ++ ArgFloat32 bits :: post |}
             {| Address := address; arguments := pre ++ ArgFloat32 bits :: post |}
  = Ok false.
Proof.
  intros Hpre Hlen Hnan. unfold Equals, CountArguments. cbn [Address arguments].
  rewrite String.eqb_refl. cbn [negb].
  rewrite !length_app. cbn [List.length]. rewrite Hlen, Z.eqb_refl. cbn [negb].
  rewrite !Equals_loop_prefix by assumption.
  cbn [Equals_loop interface_neq]. unfold float_eq. rewrite Hnan.
  split; reflexivity.
Qed.

Lemma Equals_blob_and_NaN_witness :
  Equals (fun _ _ => Ok false)
         {| Address := "/a"; arguments := [ArgInt32 1] ++ ArgBlob [x01] :: [] |}
         {| Address := "/a"; arguments := [ArgInt32 1] ++ ArgBlob [x01] :: [] |}
  = Panic /\
  Equals (fun _ _ => Ok false)
         {| Address := "/a";
            arguments := [ArgInt32 1] ++ ArgFloat32 0x7fc00000 :: [] |}
         {| Address := "/a";
            arguments := [ArgInt32 1] ++ ArgFloat32 0x7fc00000 :: [] |}
  = Ok false.
Proof.
  apply (Equals_blob_and_NaN (fun _ _ => Ok false) "/a" [ArgInt32 1] [] []
                             [x01] [x01] 0x7fc00000).
  - repeat constructor.
  - reflexivity.
  - reflexivity.
Defined.
